(** * Mask engine of the cell segmentation tool

    A shallow embedding of [cell_segmentation_tool.py] (the interactive
    annotator: [ImageCanvas] and [MainWindow]) and of
    [convert_masks_to_cellpose.py] (the batch migrator), followed by the
    properties of the mask store, the undo stack and the container codec.

    Conventions.
    - A NumPy array is its dtype, its shape and its row-major buffer; every
      cast is written out with its wrap-around.
    - The file system is a finite map from path strings to file contents.
    - A Python exception is an explicit outcome; the state returned with it
      is the state at the point where the exception left the function.
    - OpenCV ([cv2.fillPoly], [cv2.findContours], [cv2.drawContours],
      [cv2.cvtColor]) is an interface: the program is modelled for every
      implementation of it.
    - Rendering, zoom and pan arithmetic, channel selection, the widgets
      and the command line of the migrator do not reach the masks, the
      undo stack or the disk, and are left out. *)

From Stdlib Require Import ZArith List Lia String Ascii Bool Sorted.
From stdpp Require Import base option list gmap strings.
Import ListNotations.

#[local] Set Warnings "-register-all,-clear-no-such-hyp".
#[local] Open Scope Z_scope.

(* ===================================================================== *)
(** * NumPy arrays *)
(* ===================================================================== *)

Inductive dtype := np_bool | np_uint8 | np_uint16 | np_int32 | np_int64.

(** C-style conversion of an integer to a dtype ([ndarray.astype]). *)
Definition wrap (t : dtype) (z : Z) : Z :=
  match t with
  | np_bool => if z =? 0 then 0 else 1
  | np_uint8 => z mod 2 ^ 8
  | np_uint16 => z mod 2 ^ 16
  | np_int32 => (z + 2 ^ 31) mod 2 ^ 32 - 2 ^ 31
  | np_int64 => (z + 2 ^ 63) mod 2 ^ 64 - 2 ^ 63
  end.

(** A Python int can be stored in a cell of dtype [t] without change. *)
Definition fits (t : dtype) (z : Z) : bool := wrap t z =? z.

Record ndarray := NdArray {
  dtype_of : dtype;
  shape : list nat;
  data : list Z          (* row-major buffer *)
}.

Definition ndim (a : ndarray) : nat := length (shape a).

Definition size_of (shp : list nat) : nat := fold_right Nat.mul 1%nat shp.

(** [np.zeros(shp, dtype=t)] *)
Definition np_zeros (shp : list nat) (t : dtype) : ndarray :=
  NdArray t shp (replicate (size_of shp) 0).

(** [np.zeros_like(a, dtype=t)] *)
Definition np_zeros_like (a : ndarray) (t : dtype) : ndarray :=
  np_zeros (shape a) t.

(** [a.astype(t)] *)
Definition astype (t : dtype) (a : ndarray) : ndarray :=
  NdArray t (shape a) (map (wrap t) (data a)).

(** [a.shape[:2]] *)
Definition shape2 (a : ndarray) : list nat := firstn 2 (shape a).

(** Insertion into a strictly increasing list, keeping it duplicate free. *)
Fixpoint insert_unique (z : Z) (l : list Z) : list Z :=
  match l with
  | [] => [z]
  | x :: t =>
      if z <? x then z :: x :: t
      else if z =? x then x :: t
      else x :: insert_unique z t
  end.

(** [np.unique(a)]: the sorted distinct values of the buffer. *)
Definition np_unique (a : ndarray) : list Z :=
  fold_right insert_unique [] (data a).

(** [unique_ids[unique_ids > 0]] *)
Definition positive_ids (a : ndarray) : list Z :=
  filter (fun z => 0 < z) (np_unique a).

(** [a.max()]; [None] is the ValueError NumPy raises on an empty array. *)
Definition np_max (a : ndarray) : option Z :=
  match data a with
  | [] => None
  | x :: t => Some (fold_left Z.max t x)
  end.

(** [np.sum(a)] *)
Definition np_sum (a : ndarray) : Z := fold_right Z.add 0 (data a).

(** Python index normalisation along an axis of length [n]: a negative
    index counts from the end; [None] is IndexError. *)
Definition norm_index (n : nat) (i : Z) : option nat :=
  if (0 <=? i) && (i <? Z.of_nat n) then Some (Z.to_nat i)
  else if (- Z.of_nat n <=? i) && (i <? 0) then Some (Z.to_nat (i + Z.of_nat n))
  else None.

(** [a[i, j]] on a 2-D array. *)
Definition getitem2 (a : ndarray) (i j : Z) : option Z :=
  match shape a with
  | [h; w] =>
      r ← norm_index h i;
      c ← norm_index w j;
      data a !! (r * w + c)%nat
  | _ => None
  end.

(** [a[a == v] = 0] *)
Definition clear_equal (a : ndarray) (v : Z) : ndarray :=
  NdArray (dtype_of a) (shape a)
          (map (fun u => if u =? v then 0 else u) (data a)).

(** [m[a > 0] = 0] for a mask [m] of the shape of [a]. *)
Definition clear_where_positive (m a : ndarray) : ndarray :=
  NdArray (dtype_of m) (shape m)
          (imap (fun i u => if 0 <? default 0 (data a !! i) then 0 else u) (data m)).

(** [a[m == 1] = v], for [v] already converted to the dtype of [a]. *)
Definition assign_where_one (a m : ndarray) (v : Z) : ndarray :=
  NdArray (dtype_of a) (shape a)
          (imap (fun i u => if default 0 (data m !! i) =? 1 then v else u) (data a)).

(** [(a == v).astype(np.uint8)] *)
Definition equal_mask (a : ndarray) (v : Z) : ndarray :=
  NdArray np_uint8 (shape a) (map (fun u => if u =? v then 1 else 0) (data a)).

(** The buffer of a well-formed array has one cell per index. *)
Definition well_formed (a : ndarray) : Prop :=
  length (data a) = size_of (shape a).

(* ===================================================================== *)
(** * Python objects stored in containers, and files *)
(* ===================================================================== *)

(** Floats occur only as literal metadata; they are kept as decimal
    fractions [num / 10]. *)
Inductive pyobj :=
| PyNone
| PyBool (b : bool)
| PyInt (z : Z)
| PyFloat (tenths : Z)
| PyStr (s : string)
| PyList (l : list pyobj)
| PyDict (d : gmap string pyobj)
| PyArray (a : ndarray).

(** What [np.load(path, allow_pickle=True)] returns for a readable file:
    a numeric array, or a 0-d object array wrapping a pickled object. *)
Inductive npy :=
| NumArray (a : ndarray)
| ObjScalar (o : pyobj).

(** File contents. An image is kept as the leading two dimensions of what
    [skimage.io.imread] decodes, the only part of it the engine reads.
    [FOther] is any content neither reader accepts. *)
Inductive file :=
| FImage (height width : nat)
| FNpy (content : npy)
| FOther.

Abbreviation filesystem := (gmap string file).

(** [skimage.io.imread]; [None] when it raises. *)
Definition imread (fs : filesystem) (p : string) : option (nat * nat) :=
  match fs !! p with
  | Some (FImage h w) => Some (h, w)
  | _ => None
  end.

(** [np.load]; [None] when it raises. *)
Definition np_load (fs : filesystem) (p : string) : option npy :=
  match fs !! p with
  | Some (FNpy c) => Some c
  | _ => None
  end.

(** [os.path.exists] *)
Definition path_exists (fs : filesystem) (p : string) : bool :=
  bool_decide (is_Some (fs !! p)).

(* ===================================================================== *)
(** * Strings and paths *)
(* ===================================================================== *)

#[local] Open Scope string_scope.

Definition lower_ascii (c : ascii) : ascii :=
  let n := nat_of_ascii c in
  if ((65 <=? n) && (n <=? 90))%nat then ascii_of_nat (n + 32) else c.

(** [str.lower] on ASCII text. *)
Fixpoint lower (s : string) : string :=
  match s with
  | EmptyString => EmptyString
  | String c t => String (lower_ascii c) (lower t)
  end.

(** [s.endswith(suf)] *)
Definition endswith (s suf : string) : bool :=
  let n := String.length s in
  let m := String.length suf in
  ((m <=? n)%nat && String.eqb (substring (n - m) m s) suf).

(** [s.replace(old, '')] for a non-empty [old] of length [S k]: scan left
    to right, dropping every occurrence; [skip] counts the characters of
    the occurrence being dropped. *)
Fixpoint remove_all_from (old : string) (k : nat) (skip : nat) (s : string) : string :=
  match s with
  | EmptyString => EmptyString
  | String c t =>
      match skip with
      | S n => remove_all_from old k n t
      | O => if String.prefix old s then remove_all_from old k k t
             else String c (remove_all_from old k O t)
      end
  end.

Definition remove_all (old s : string) : string :=
  match String.length old with
  | O => s
  | S k => remove_all_from old k O s
  end.

(** Split at the last occurrence of [sep]: the part up to and including
    it, and the rest. Without an occurrence the first part is empty. *)
Fixpoint split_last (sep : ascii) (s : string) : string * string :=
  match s with
  | EmptyString => (EmptyString, EmptyString)
  | String c t =>
      let '(a, b) := split_last sep t in
      if negb (String.eqb a EmptyString) then (String c a, b)
      else if Ascii.eqb c sep then (String c EmptyString, t)
      else (EmptyString, String c t)
  end.

(** Paths are the strings [pathlib] prints for normalised POSIX paths. *)

(** [Path(p).name] *)
Definition path_name (p : string) : string := snd (split_last "/" p).

(** The directory of [p] with its trailing slash (empty when [p] has no
    directory): [str(Path(p).parent / n)] is [path_dir p ++ n]. *)
Definition path_dir (p : string) : string := fst (split_last "/" p).

(** [PurePath.stem]: the name up to its last dot, when that dot is neither
    the first nor the last character of the name. *)
Definition name_stem (name : string) : string :=
  let '(a, b) := split_last "." name in
  if ((2 <=? String.length a)%nat && negb (String.eqb b EmptyString))
  then substring 0 (String.length a - 1) a else name.

(** [Path(p).stem] *)
Definition path_stem (p : string) : string := name_stem (path_name p).

(** [ImageCanvas._get_mask_path] *)
Definition _get_mask_path (image_path : string) : string :=
  let mask_filename := (path_stem image_path ++ "_seg.npy")%string in
  (path_dir image_path ++ mask_filename)%string.



#[local] Open Scope list_scope.
#[local] Open Scope Z_scope.

(* ===================================================================== *)
(** * The OpenCV and NumPy interfaces *)
(* ===================================================================== *)

Abbreviation point := (Z * Z)%type.
Abbreviation contour := (list point).

Class OpenCV := {
  (** [poly_covers pts x y]: [cv2.fillPoly] sets pixel (x, y) when asked
      to fill the closed polygon [pts]. *)
  poly_covers : list point -> nat -> nat -> bool;
  (** [cv2.findContours(img, RETR_EXTERNAL, CHAIN_APPROX_NONE)];
      [None] when OpenCV rejects the image with [cv2.error]. *)
  findContours : ndarray -> option (list contour);
  (** [cv2.drawContours(img, contours, -1, color, 1)], as the new image. *)
  drawContours : ndarray -> list contour -> Z -> ndarray;
  (** [cv2.cvtColor(np.uint8([[[h, s, v]]]), cv2.COLOR_HSV2RGB)[0, 0]] *)
  cvtColor_HSV2RGB : Z * Z * Z -> Z * Z * Z
}.

(** The one call of NumPy on a Python object that is no array: the
    migration counts the ['masks'] entry of a dictionary with
    [np.unique] whatever that entry is. *)
Class NumPy := {
  (** [len(np.unique(l))] for a Python list [l]; [None] when NumPy
      raises (ragged nesting, elements that do not compare). *)
  len_unique_list : list pyobj -> option nat
}.

(** Python exceptions that can leave the modelled functions. *)
Inductive exn := AttributeError | ValueError | OverflowError | IndexError.

Section Engine.
Context `{cv : OpenCV} `{numpy : NumPy}.

(** [cv2.fillPoly(img, [pts], color)] on a 2-D image: the covered pixels
    take [color], the others keep their value. *)
Definition cv2_fillPoly (img : ndarray) (pts : list point) (color : Z) : ndarray :=
  match shape img with
  | [_; w] =>
      NdArray (dtype_of img) (shape img)
              (imap (fun i u => if poly_covers pts (i mod w)%nat (i / w)%nat
                                then color else u) (data img))
  | _ => img
  end.

(** Hue of an instance: [(mask_id * 137) % 180], computed on the NumPy
    scalar [mask_id], so the product wraps in the dtype of the array
    (a boolean scalar is promoted to int64 first). *)
Definition hue_of (t : dtype) (mask_id : Z) : Z :=
  let t' := match t with np_bool => np_int64 | _ => t end in
  wrap t' (mask_id * 137) mod 180.

Definition color_for (t : dtype) (mask_id : Z) : list Z :=
  let '(r, g, b) := cvtColor_HSV2RGB (hue_of t mask_id, 255, 255) in [r; g; b].

(** The loop of [_generate_outlines] / [generate_outlines]. *)
Fixpoint draw_outlines (masks : ndarray) (ids : list Z) (outlines : ndarray)
  : option ndarray :=
  match ids with
  | [] => Some outlines
  | mask_id :: rest =>
      let binary_mask := equal_mask masks mask_id in
      match findContours binary_mask with
      | None => None
      | Some contours =>
          draw_outlines masks rest (drawContours outlines contours mask_id)
      end
  end.

(** [ImageCanvas._generate_outlines] and [generate_outlines(masks)];
    [None] when OpenCV raises. *)
Definition generate_outlines (masks : ndarray) : option ndarray :=
  draw_outlines masks (positive_ids masks) (np_zeros_like masks np_uint16).

(** [ImageCanvas._generate_colors] and [generate_colors(masks)]. *)
Definition generate_colors (masks : ndarray) : ndarray :=
  let unique_ids := positive_ids masks in
  match unique_ids with
  | [] => NdArray np_int64 [1; 3]%nat [0; 0; 0]
  | _ =>
      let colors := map (color_for (dtype_of masks)) unique_ids in
      NdArray np_int64 [length colors; 3%nat] (concat colors)
  end.

(** The [normalize_params] literal. *)
Definition normalize_params : gmap string pyobj :=
  <["lowhigh" := PyNone]> (
  <["percentile" := PyList [PyFloat 10; PyFloat 990]]> (
  <["normalize" := PyBool true]> (
  <["norm3D" := PyBool true]> (
  <["sharpen_radius" := PyFloat 0]> (
  <["smooth_radius" := PyFloat 0]> (
  <["tile_norm_blocksize" := PyFloat 0]> (
  <["tile_norm_smooth3D" := PyFloat 0]> (
  <["invert" := PyBool false]> ∅)))))))).

(** The [cellpose_data] literal, written in [save_masks] and in
    [convert_to_cellpose_format] with the same keys and defaults. *)
Definition cellpose_data (outlines colors masks : ndarray) (filename : string)
  : gmap string pyobj :=
  <["outlines" := PyArray outlines]> (
  <["colors" := PyArray colors]> (
  <["masks" := PyArray (astype np_uint16 masks)]> (
  <["filename" := PyStr filename]> (
  <["flows" := PyList []]> (
  <["ismanual" := PyArray (NdArray np_bool [1%nat] [1])]> (
  <["manual_changes" := PyList []]> (
  <["model_path" := PyInt 0]> (
  <["flow_threshold" := PyFloat 4]> (
  <["cellprob_threshold" := PyFloat 0]> (
  <["normalize_params" := PyDict normalize_params]> (
  <["restore" := PyNone]> (
  <["ratio" := PyFloat 10]> (
  <["diameter" := PyNone]> ∅))))))))))))).

(* ===================================================================== *)
(** * Application state *)
(* ===================================================================== *)

(** [ImageCanvas]: the image is kept as its leading two dimensions; the
    view transform and the display settings do not reach the mask
    engine and are left out. *)
Record ImageCanvas := {
  image : option (nat * nat);
  image_path : option string;
  masks : option ndarray;
  current_polygon : list point;
  is_drawing : bool;
  is_panning : bool;
  is_cmd_pressed : bool;
  space_pressed : bool;
  last_mouse_pos : option point;
  next_mask_id : Z
}.

(** [MainWindow] *)
Record MainWindow := {
  canvas : ImageCanvas;
  undo_stack : list ndarray;       (* oldest first, as the Python list *)
  tiff_files : list string;
  current_file_index : Z
}.

Definition max_undo_steps : nat := 50.

(** The whole session: the window and the disk. *)
Record World := { window : MainWindow; disk : filesystem }.

(** [ImageCanvas.__init__] *)
Definition ImageCanvas_init : ImageCanvas := {|
  image := None; image_path := None; masks := None;
  current_polygon := []; is_drawing := false; is_panning := false;
  is_cmd_pressed := false; space_pressed := false; last_mouse_pos := None;
  next_mask_id := 1
|}.

(** [MainWindow.__init__] *)
Definition MainWindow_init : MainWindow := {|
  canvas := ImageCanvas_init; undo_stack := [];
  tiff_files := []; current_file_index := -1
|}.

Definition set_masks (m : option ndarray) (c : ImageCanvas) : ImageCanvas :=
  {| image := image c; image_path := image_path c; masks := m;
     current_polygon := current_polygon c; is_drawing := is_drawing c;
     is_panning := is_panning c; is_cmd_pressed := is_cmd_pressed c;
     space_pressed := space_pressed c; last_mouse_pos := last_mouse_pos c;
     next_mask_id := next_mask_id c |}.

Definition set_next_mask_id (n : Z) (c : ImageCanvas) : ImageCanvas :=
  {| image := image c; image_path := image_path c; masks := masks c;
     current_polygon := current_polygon c; is_drawing := is_drawing c;
     is_panning := is_panning c; is_cmd_pressed := is_cmd_pressed c;
     space_pressed := space_pressed c; last_mouse_pos := last_mouse_pos c;
     next_mask_id := n |}.

Definition set_current_polygon (p : list point) (c : ImageCanvas) : ImageCanvas :=
  {| image := image c; image_path := image_path c; masks := masks c;
     current_polygon := p; is_drawing := is_drawing c;
     is_panning := is_panning c; is_cmd_pressed := is_cmd_pressed c;
     space_pressed := space_pressed c; last_mouse_pos := last_mouse_pos c;
     next_mask_id := next_mask_id c |}.

Definition set_is_drawing (b : bool) (c : ImageCanvas) : ImageCanvas :=
  {| image := image c; image_path := image_path c; masks := masks c;
     current_polygon := current_polygon c; is_drawing := b;
     is_panning := is_panning c; is_cmd_pressed := is_cmd_pressed c;
     space_pressed := space_pressed c; last_mouse_pos := last_mouse_pos c;
     next_mask_id := next_mask_id c |}.

Definition set_is_panning (b : bool) (c : ImageCanvas) : ImageCanvas :=
  {| image := image c; image_path := image_path c; masks := masks c;
     current_polygon := current_polygon c; is_drawing := is_drawing c;
     is_panning := b; is_cmd_pressed := is_cmd_pressed c;
     space_pressed := space_pressed c; last_mouse_pos := last_mouse_pos c;
     next_mask_id := next_mask_id c |}.

Definition set_is_cmd_pressed (b : bool) (c : ImageCanvas) : ImageCanvas :=
  {| image := image c; image_path := image_path c; masks := masks c;
     current_polygon := current_polygon c; is_drawing := is_drawing c;
     is_panning := is_panning c; is_cmd_pressed := b;
     space_pressed := space_pressed c; last_mouse_pos := last_mouse_pos c;
     next_mask_id := next_mask_id c |}.

Definition set_last_mouse_pos (p : option point) (c : ImageCanvas) : ImageCanvas :=
  {| image := image c; image_path := image_path c; masks := masks c;
     current_polygon := current_polygon c; is_drawing := is_drawing c;
     is_panning := is_panning c; is_cmd_pressed := is_cmd_pressed c;
     space_pressed := space_pressed c; last_mouse_pos := p;
     next_mask_id := next_mask_id c |}.

Definition set_image (shp : nat * nat) (p : string) (c : ImageCanvas) : ImageCanvas :=
  {| image := Some shp; image_path := Some p; masks := masks c;
     current_polygon := current_polygon c; is_drawing := is_drawing c;
     is_panning := is_panning c; is_cmd_pressed := is_cmd_pressed c;
     space_pressed := space_pressed c; last_mouse_pos := last_mouse_pos c;
     next_mask_id := next_mask_id c |}.

Definition set_canvas (c : ImageCanvas) (w : MainWindow) : MainWindow :=
  {| canvas := c; undo_stack := undo_stack w;
     tiff_files := tiff_files w; current_file_index := current_file_index w |}.

Definition set_undo_stack (s : list ndarray) (w : MainWindow) : MainWindow :=
  {| canvas := canvas w; undo_stack := s;
     tiff_files := tiff_files w; current_file_index := current_file_index w |}.

Definition set_file_list (l : list string) (i : Z) (w : MainWindow) : MainWindow :=
  {| canvas := canvas w; undo_stack := undo_stack w;
     tiff_files := l; current_file_index := i |}.

(* ===================================================================== *)
(** * Undo stack and persistence *)
(* ===================================================================== *)

(** [MainWindow.add_to_undo_stack] *)
Definition add_to_undo_stack (w : MainWindow) : MainWindow :=
  match masks (canvas w) with
  | Some m =>
      let stack := undo_stack w ++ [m] in            (* append(masks.copy()) *)
      if (max_undo_steps <? length stack)%nat
      then set_undo_stack (tail stack) w             (* pop(0) *)
      else set_undo_stack stack w
  | None => w
  end.

(** What [save_masks] prints, or its silent early return. *)
Inductive save_signal :=
| SaveSkipped
| Saved (num_masks : Z)
| DeletedEmpty
| NothingToSave
| SaveFailed.

(** [ImageCanvas.save_masks] *)
Definition save_masks (c : ImageCanvas) (fs : filesystem) : save_signal * filesystem :=
  match image_path c, masks c with
  | Some path, Some m =>
      let mask_path := _get_mask_path path in
      let num_masks := Z.of_nat (length (np_unique m)) - 1 in
      if 0 <? num_masks then
        match generate_outlines m with
        | Some outlines =>
            let colors := generate_colors m in
            let container := ObjScalar (PyDict (cellpose_data outlines colors m path)) in
            (Saved num_masks, <[mask_path := FNpy container]> fs)
        | None => (SaveFailed, fs)                   (* except Exception *)
        end
      else if path_exists fs mask_path
           then (DeletedEmpty, delete mask_path fs)
           else (NothingToSave, fs)
  | _, _ => (SaveSkipped, fs)
  end.

(** [list.pop()]: the last element and the list without it. *)
Definition py_pop {A} (l : list A) : option (A * list A) :=
  match rev l with
  | [] => None
  | x :: r => Some (x, rev r)
  end.

(** [MainWindow.undo] *)
Definition undo (W : World) : World :=
  match py_pop (undo_stack (window W)) with
  | Some (m, rest) =>                                (* len(undo_stack) > 0 *)
      let c := set_masks (Some m) (canvas (window W)) in
      let w := set_canvas c (set_undo_stack rest (window W)) in
      {| window := w; disk := snd (save_masks c (disk W)) |}
  | None => W
  end.

(* ===================================================================== *)
(** * Mask store: paint and erase *)
(* ===================================================================== *)

(** What [_create_mask_from_polygon] prints; [TooFewPoints] is its silent
    early return. *)
Inductive paint_signal :=
| TooFewPoints
| Created (mask_id : Z) (pixels : Z)
| CompletelyOverlapped
| PaintRaised (e : exn).

Definition point_fits (p : point) : bool :=
  fits np_int32 (fst p) && fits np_int32 (snd p).

(** [ImageCanvas._create_mask_from_polygon]. A Python int that does not
    fit the dtype it is stored into raises OverflowError (NumPy 2). *)
Definition _create_mask_from_polygon (w : MainWindow) : paint_signal * MainWindow :=
  let c := canvas w in
  if (length (current_polygon c) <? 3)%nat then (TooFewPoints, w) else
  match masks c with
  | None => (PaintRaised AttributeError, w)
  | Some m =>
      match shape m with
      | [height; width] =>
          if negb (forallb point_fits (current_polygon c))
          then (PaintRaised OverflowError, w)        (* np.array(..., dtype=np.int32) *)
          else
            let new_mask := np_zeros [height; width] np_uint8 in
            let new_mask := cv2_fillPoly new_mask (current_polygon c) 1 in
            let new_mask := clear_where_positive new_mask m in
            if 0 <? np_sum new_mask then
              if fits (dtype_of m) (next_mask_id c) then
                let m' := assign_where_one m new_mask (next_mask_id c) in
                let c' := set_next_mask_id (next_mask_id c + 1) (set_masks (Some m') c) in
                (Created (next_mask_id c) (np_sum new_mask),
                 add_to_undo_stack (set_canvas c' w))
              else (PaintRaised OverflowError, w)
            else (CompletelyOverlapped, w)
      | _ => (PaintRaised ValueError, w)             (* height, width = shape *)
      end
  end.

(** What [_delete_mask_at] prints. *)
Inductive delete_signal :=
| NoMasksLoaded
| Deleted (mask_id : Z)
| NoMaskHere
| OutOfBounds
| DeleteRaised (e : exn).

(** [ImageCanvas._delete_mask_at] *)
Definition _delete_mask_at (img_x img_y : Z) (W : World) : delete_signal * World :=
  match masks (canvas (window W)) with
  | None => (NoMasksLoaded, W)
  | Some m =>
      match shape m with
      | [height; width] =>
          if (0 <=? img_x) && (img_x <? Z.of_nat width)
             && (0 <=? img_y) && (img_y <? Z.of_nat height)
          then
            match getitem2 m img_y img_x with
            | None => (DeleteRaised IndexError, W)
            | Some mask_id =>
                if 0 <? mask_id then
                  let w1 := add_to_undo_stack (window W) in
                  let c2 := set_masks (Some (clear_equal m mask_id)) (canvas w1) in
                  (Deleted mask_id,
                   {| window := set_canvas c2 w1;
                      disk := snd (save_masks c2 (disk W)) |})
                else (NoMaskHere, W)
            end
          else (OutOfBounds, W)
      | _ => (DeleteRaised ValueError, W)            (* height, width = shape *)
      end
  end.

(* ===================================================================== *)
(** * Loading an image and its container *)
(* ===================================================================== *)

Definition tiff_extensions : list string := [".tif"; ".tiff"; ".TIF"; ".TIFF"].

(** [directory.glob('*' + ext)]: the files of the directory whose name
    ends with [ext]. *)
Definition glob_ext (fs : filesystem) (dir ext : string) : list string :=
  filter (fun p => path_dir p = dir ∧ endswith (path_name p) ext = true)
         (map fst (map_to_list fs)).

Fixpoint insert_sorted (x : string) (l : list string) : list string :=
  match l with
  | [] => [x]
  | y :: t => if String.leb x y then x :: y :: t else y :: insert_sorted x t
  end.

(** [sorted(paths)] for paths of one directory. *)
Definition sorted (l : list string) : list string := fold_right insert_sorted [] l.

(** [l.index(x)]; [None] is ValueError. *)
Fixpoint list_index (x : string) (l : list string) : option nat :=
  match l with
  | [] => None
  | y :: t => if String.eqb x y then Some O else S <$> list_index x t
  end.

(** [MainWindow.build_file_list] *)
Definition build_file_list (fs : filesystem) (current_filepath : string)
    (w : MainWindow) : MainWindow :=
  let directory := path_dir current_filepath in
  let files := sorted (concat (map (glob_ext fs directory) tiff_extensions)) in
  let index := match list_index current_filepath files with
               | Some i => Z.of_nat i
               | None => -1
               end in
  set_file_list files index w.

(** The array that [load_image] tests with
    [isinstance(loaded_masks, np.ndarray) and loaded_masks.ndim >= 2]
    after unwrapping a dictionary container; [None] when that test fails
    whatever the rank (a 0-d object array, or a ['masks'] entry that is
    not an array). *)
Definition masks_candidate (loaded : npy) : option ndarray :=
  match loaded with
  | NumArray a => Some a
  | ObjScalar (PyDict d) =>
      match d !! "masks" with
      | Some (PyArray a) => Some a
      | _ => None
      end
  | ObjScalar _ => None
  end.

(** The inner [try] of [load_image]: the masks and the next ID it leaves. *)
Definition load_existing_masks (fs : filesystem) (mask_path : string)
    (zeros : ndarray) (next_id : Z) : ndarray * Z :=
  match np_load fs mask_path with
  | None => (zeros, next_id)                         (* except Exception *)
  | Some loaded =>
      match masks_candidate loaded with
      | Some loaded_masks =>
          if (2 <=? ndim loaded_masks)%nat then
            if bool_decide (shape2 loaded_masks = shape zeros) then
              let m := astype np_int32 loaded_masks in
              match np_max m with
              | Some mx => if 0 <? mx then (m, mx + 1) else (m, next_id)
              | None => (m, next_id)                 (* max() raised; caught *)
              end
            else (zeros, next_id)
          else (zeros, next_id)
      | None => (zeros, next_id)
      end
  end.

(** [ImageCanvas.load_image]; the boolean is its return value. *)
Definition load_image (filepath : string) (W : World) : bool * World :=
  match imread (disk W) filepath with
  | None => (false, W)                               (* except Exception *)
  | Some (h, w) =>
      let win := build_file_list (disk W) filepath (window W) in
      let c := set_image (h, w) filepath (canvas win) in
      let zeros := np_zeros [h; w] np_int32 in
      let mask_path := _get_mask_path filepath in
      let '(m, next_id) :=
        if path_exists (disk W) mask_path
        then load_existing_masks (disk W) mask_path zeros (next_mask_id c)
        else (zeros, next_mask_id c) in
      let c := set_next_mask_id next_id (set_masks (Some m) c) in
      let c := set_is_drawing false (set_current_polygon [] c) in
      (true, {| window := set_canvas c win; disk := disk W |})
  end.

(** The guarded save that precedes every switch of image. *)
Definition save_before_switch (W : World) : World :=
  match masks (canvas (window W)), image_path (canvas (window W)) with
  | Some _, Some _ =>
      {| window := window W; disk := snd (save_masks (canvas (window W)) (disk W)) |}
  | _, _ => W
  end.

Definition clear_undo_stack (W : World) : World :=
  {| window := set_undo_stack [] (window W); disk := disk W |}.

(** [ImageCanvas.dropEvent]; [urls] are the local files of the dropped
    URLs. *)
Definition dropEvent (urls : list string) (W : World) : World :=
  match urls with
  | filepath :: _ =>
      if endswith (lower filepath) ".tif" || endswith (lower filepath) ".tiff" then
        let W := save_before_switch W in
        snd (load_image filepath W)
      else W
  | [] => W
  end.

(** [MainWindow.open_image_dialog]; [filepath] is what the dialog
    returns, empty when it is cancelled. *)
Definition open_image_dialog (filepath : string) (W : World) : World :=
  if String.eqb filepath "" then W else
  let W := save_before_switch W in
  match imread (disk W) filepath with
  | None => W
  | Some _ => clear_undo_stack (snd (load_image filepath W))
  end.

Definition set_index (i : Z) (W : World) : World :=
  {| window := set_file_list (tiff_files (window W)) i (window W); disk := disk W |}.

(** The shared tail of [load_previous_file] and [load_next_file]. *)
Definition load_at_index (i : Z) (W : World) : World :=
  let W := set_index i (save_before_switch W) in
  match tiff_files (window W) !! Z.to_nat i with
  | Some next_file =>
      match imread (disk W) next_file with
      | None => W
      | Some _ => clear_undo_stack (snd (load_image next_file W))
      end
  | None => W
  end.

(** [MainWindow.load_previous_file] *)
Definition load_previous_file (W : World) : World :=
  if (length (tiff_files (window W)) =? 0)%nat then W
  else if current_file_index (window W) <=? 0 then W
  else load_at_index (current_file_index (window W) - 1) W.

(** [MainWindow.load_next_file] *)
Definition load_next_file (W : World) : World :=
  if (length (tiff_files (window W)) =? 0)%nat then W
  else if Z.of_nat (length (tiff_files (window W))) - 1 <=? current_file_index (window W) then W
  else load_at_index (current_file_index (window W) + 1) W.

(* ===================================================================== *)
(** * Mouse gestures *)
(* ===================================================================== *)

(** A mouse event: the pointer in image coordinates (the result of
    [screen_to_image_coords]), its screen position, and the button and
    modifier tests the handlers make. *)
Record mouse_event := {
  ev_x : Z;
  ev_y : Z;
  ev_pos : point;
  left_button : bool;
  ctrl_or_meta : bool
}.

Definition on_canvas (f : ImageCanvas -> ImageCanvas) (W : World) : World :=
  {| window := set_canvas (f (canvas (window W))) (window W); disk := disk W |}.

(** [ImageCanvas.mousePressEvent] *)
Definition mousePressEvent (e : mouse_event) (W : World) : World :=
  let c := canvas (window W) in
  match image c with
  | None => W
  | Some _ =>
      if left_button e && space_pressed c then
        on_canvas (fun c => set_last_mouse_pos (Some (ev_pos e)) (set_is_panning true c)) W
      else if left_button e && ctrl_or_meta e then
        on_canvas (fun c => set_last_mouse_pos (Some (ev_pos e)) (set_is_cmd_pressed true c)) W
      else if left_button e then
        on_canvas (fun c => set_current_polygon [(ev_x e, ev_y e)] (set_is_drawing true c)) W
      else W
  end.

(** The test [np.sqrt(dx**2 + dy**2) > 2] on integer coordinates. *)
Definition far_enough (p q : point) : bool :=
  4 <? (fst p - fst q) ^ 2 + (snd p - snd q) ^ 2.

(** [dx**2 + dy**2] is a Python int; from 2^64 on it fits no integer
    dtype and [np.sqrt] raises TypeError. *)
Definition np_sqrt_raises (p q : point) : bool :=
  2 ^ 64 <=? (fst p - fst q) ^ 2 + (snd p - snd q) ^ 2.

(** [ImageCanvas.mouseMoveEvent]; when [np.sqrt] raises, the handler
    ends with the session as it was. *)
Definition mouseMoveEvent (e : mouse_event) (W : World) : World :=
  let c := canvas (window W) in
  match image c with
  | None => W
  | Some _ =>
      if is_cmd_pressed c && bool_decide (is_Some (last_mouse_pos c)) then W
      else if is_panning c && bool_decide (is_Some (last_mouse_pos c)) then
        on_canvas (set_last_mouse_pos (Some (ev_pos e))) W
      else if is_drawing c then
        match last (current_polygon c) with
        | Some q =>
            if np_sqrt_raises (ev_x e, ev_y e) q then W          (* TypeError *)
            else if far_enough (ev_x e, ev_y e) q
            then on_canvas (set_current_polygon (current_polygon c ++ [(ev_x e, ev_y e)])) W
            else W
        | None => on_canvas (set_current_polygon [(ev_x e, ev_y e)]) W
        end
      else W
  end.

(** [ImageCanvas.mouseReleaseEvent]; the first component is the exception
    that left the handler, if any. *)
Definition mouseReleaseEvent (e : mouse_event) (W : World) : option exn * World :=
  let c := canvas (window W) in
  match image c with
  | None => (None, W)
  | Some _ =>
      if is_cmd_pressed c && bool_decide (is_Some (last_mouse_pos c)) then
        match _delete_mask_at (ev_x e) (ev_y e) W with
        | (DeleteRaised x, W') => (Some x, W')
        | (_, W') =>
            (None, on_canvas (fun c => set_last_mouse_pos None (set_is_cmd_pressed false c)) W')
        end
      else if is_panning c then
        (None, on_canvas (fun c => set_last_mouse_pos None (set_is_panning false c)) W)
      else if is_drawing c && left_button e then
        let W := on_canvas (set_is_drawing false) W in
        if (3 <=? length (current_polygon c))%nat then
          match _create_mask_from_polygon (window W) with
          | (PaintRaised x, w') => (Some x, {| window := w'; disk := disk W |})
          | (_, w') =>
              let fs' := snd (save_masks (canvas w') (disk W)) in     (* Auto-save *)
              (None, on_canvas (set_current_polygon []) {| window := w'; disk := fs' |})
          end
        else (None, on_canvas (set_current_polygon []) W)
      else (None, W)
  end.

(* ===================================================================== *)
(** * Batch migration ([convert_masks_to_cellpose.py]) *)
(* ===================================================================== *)

Definition has_key (item : gmap string pyobj) (field : string) : bool :=
  bool_decide (is_Some (item !! field)).

(** [is_cellpose_format] *)
Definition is_cellpose_format (data : npy) : bool :=
  match data with
  | ObjScalar (PyDict item) =>
      if has_key item "masks" then
        let required_fields := ["masks"; "outlines"; "colors"] in
        forallb (has_key item) required_fields
      else false
  | _ => false
  end.

Fixpoint first_existing (fs : filesystem) (candidates : list string) : option string :=
  match candidates with
  | [] => None
  | tif_path :: rest =>
      if path_exists fs tif_path then Some tif_path else first_existing fs rest
  end.

(** [get_corresponding_tif] *)
Definition get_corresponding_tif (fs : filesystem) (mask_path : string) : option string :=
  let base_name := remove_all "_seg" (path_stem mask_path) in
  first_existing fs
    (map (fun ext => (path_dir mask_path ++ (base_name ++ ext))%string) tiff_extensions).

(** [convert_to_cellpose_format]; [None] when OpenCV raises. *)
Definition convert_to_cellpose_format (masks_array : ndarray) (image_path : string)
  : option npy :=
  outlines ← generate_outlines masks_array;
  let colors := generate_colors masks_array in
  Some (ObjScalar (PyDict (cellpose_data outlines colors masks_array image_path))).

(** The first component of what [convert_file] returns; [converted]
    carries the number printed in its message and whether the message
    ends with "(updated format)". *)
Inductive convert_status :=
| converted (num_masks : Z) (updated_format : bool)
| already_cellpose
| no_tif
| unknown_format
| error.

(** The steps [convert_file] takes, in both of its branches, once the
    masks and the TIFF are known. *)
Definition count_and_convert (fs : filesystem) (mask_path : string)
    (dry_run backup : bool) (masks_array : ndarray) (tif_path : string)
    (updated_format : bool) : convert_status * filesystem :=
  let num_masks := Z.of_nat (length (np_unique masks_array)) - 1 in
  if dry_run then (converted num_masks updated_format, fs) else
  let fs :=
    if backup then
      match fs !! mask_path with                     (* shutil.copy2 *)
      | Some f => <[(mask_path ++ ".backup")%string := f]> fs
      | None => fs
      end
    else fs in
  match convert_to_cellpose_format masks_array tif_path with
  | Some cellpose => (converted num_masks updated_format, <[mask_path := FNpy cellpose]> fs)
  | None => (error, fs)
  end.

(** [len(np.unique(x))] for the ['masks'] entry of a dictionary. [None],
    a Python scalar, a string or a dictionary becomes a 0-d array, which
    has one element. *)
Definition len_unique (x : pyobj) : option nat :=
  match x with
  | PyArray a => Some (length (np_unique a))
  | PyList l => len_unique_list l
  | _ => Some 1%nat
  end.

(** The same steps for a ['masks'] entry that is no array. The count is
    taken, and a dry run reports a conversion. Otherwise the backup is
    made and [convert_to_cellpose_format] raises before anything is
    saved, at [masks_array.astype] (AttributeError) at the latest. *)
Definition count_and_fail (fs : filesystem) (mask_path : string)
    (dry_run backup : bool) (masks_array : pyobj) : convert_status * filesystem :=
  match len_unique masks_array with
  | None => (error, fs)                              (* except Exception *)
  | Some n =>
      let num_masks := Z.of_nat n - 1 in
      if dry_run then (converted num_masks true, fs) else
      let fs :=
        if backup then
          match fs !! mask_path with                 (* shutil.copy2 *)
          | Some f => <[(mask_path ++ ".backup")%string := f]> fs
          | None => fs
          end
        else fs in
      (error, fs)
  end.

(** [convert_file] *)
Definition convert_file (mask_path : string) (dry_run backup : bool)
    (fs : filesystem) : convert_status * filesystem :=
  match np_load fs mask_path with
  | None => (error, fs)                              (* except Exception *)
  | Some data =>
      if is_cellpose_format data then (already_cellpose, fs) else
      match data with
      | ObjScalar (PyDict item) =>
          match item !! "masks" with
          | Some masks_array =>
              match get_corresponding_tif fs mask_path with
              | None => (no_tif, fs)
              | Some tif_path =>
                  match masks_array with
                  | PyArray a => count_and_convert fs mask_path dry_run backup a tif_path true
                  | _ => count_and_fail fs mask_path dry_run backup masks_array
                  end
              end
          | None => (unknown_format, fs)
          end
      | ObjScalar _ => (unknown_format, fs)
      | NumArray a =>
          if (2 <=? ndim a)%nat then
            match get_corresponding_tif fs mask_path with
            | None => (no_tif, fs)
            | Some tif_path => count_and_convert fs mask_path dry_run backup a tif_path false
            end
          else (unknown_format, fs)
      end
  end.

(* ===================================================================== *)
(** * Vocabulary of the properties *)
(* ===================================================================== *)

(** The fill that survives the subtraction of the labelled pixels: the
    [new_mask] of [_create_mask_from_polygon] at its test. *)
Definition surviving_fill (m : ndarray) (pts : list point) (height width : nat) : ndarray :=
  clear_where_positive (cv2_fillPoly (np_zeros [height; width] np_uint8) pts 1) m.

(** Every pixel of the raster that the fill of [pts] covers already
    carries an instance. *)
Definition covered_by_instances (m : ndarray) (pts : list point) (h wd : nat) : Prop :=
  forall x y, (x < wd)%nat -> (y < h)%nat -> poly_covers pts x y = true ->
    exists v, data m !! (y * wd + x)%nat = Some v /\ 0 < v.

(** The number of distinct nonzero values of an array. *)
Definition distinct_nonzero (a : ndarray) : nat :=
  length (filter (fun v => v <> 0) (np_unique a)).

(** A partial dictionary or a simple array is what [convert_file] tries
    to migrate. *)
Definition partial_or_simple (data : npy) : Prop :=
  match data with
  | NumArray a => (2 <= ndim a)%nat
  | ObjScalar (PyDict item) =>
      is_Some (item !! "masks"%string) /\ is_cellpose_format data = false
  | ObjScalar _ => False
  end.

End Engine.

(* ===================================================================== *)
(** * Keyboard, whole sessions and the batch run *)
(* ===================================================================== *)

Section Sessions_and_batch.
Context `{cv : OpenCV} `{numpy : NumPy}.

Definition set_space_pressed (b : bool) (c : ImageCanvas) : ImageCanvas :=
  {| image := image c; image_path := image_path c; masks := masks c;
     current_polygon := current_polygon c; is_drawing := is_drawing c;
     is_panning := is_panning c; is_cmd_pressed := is_cmd_pressed c;
     space_pressed := b; last_mouse_pos := last_mouse_pos c;
     next_mask_id := next_mask_id c |}.

(** The keys the handlers test; every other key is [Key_Other]. *)
Inductive key :=
| Key_Space | Key_Left | Key_Right
| Key_Plus | Key_Equal | Key_Minus | Key_Underscore
| Key_Z | Key_Other.

(** [ImageCanvas.keyPressEvent]; the zoom keys change the view transform
    only. *)
Definition ImageCanvas_keyPressEvent (k : key) (W : World) : World :=
  match k with
  | Key_Space => on_canvas (set_space_pressed true) W
  | Key_Left => load_previous_file W
  | Key_Right => load_next_file W
  | _ => W
  end.

(** [ImageCanvas.keyReleaseEvent] *)
Definition ImageCanvas_keyReleaseEvent (k : key) (W : World) : World :=
  match k with
  | Key_Space => on_canvas (set_space_pressed false) W
  | _ => W
  end.

(** [MainWindow.keyPressEvent]; [modifier] is the test for Ctrl or Meta. *)
Definition MainWindow_keyPressEvent (k : key) (modifier : bool) (W : World) : World :=
  match k with
  | Key_Z => if modifier then undo W else W
  | Key_Left => load_previous_file W
  | Key_Right => load_next_file W
  | _ => W
  end.

(** What a user can do to a running session. *)
Inductive action :=
| Press (e : mouse_event)
| Move (e : mouse_event)
| Release (e : mouse_event)
| CanvasKeyDown (k : key)
| CanvasKeyUp (k : key)
| WindowKeyDown (k : key) (modifier : bool)
| ClickUndo
| OpenImage (filepath : string)
| Drop (urls : list string).

(** One action; when a handler raises, the session goes on from the state
    the exception left. *)
Definition run (a : action) (W : World) : World :=
  match a with
  | Press e => mousePressEvent e W
  | Move e => mouseMoveEvent e W
  | Release e => snd (mouseReleaseEvent e W)
  | CanvasKeyDown k => ImageCanvas_keyPressEvent k W
  | CanvasKeyUp k => ImageCanvas_keyReleaseEvent k W
  | WindowKeyDown k modifier => MainWindow_keyPressEvent k modifier W
  | ClickUndo => undo W
  | OpenImage filepath => open_image_dialog filepath W
  | Drop urls => dropEvent urls W
  end.

Definition run_all (actions : list action) (W : World) : World :=
  fold_left (fun W a => run a W) actions W.

Definition is_drop (a : action) : bool :=
  match a with Drop _ => true | _ => false end.

(** The application as it starts on a disk. *)
Definition startup (fs : filesystem) : World :=
  {| window := MainWindow_init; disk := fs |}.

(** ** [find_mask_files] *)

(** [s.split(sep)] *)
Fixpoint split_on (sep : ascii) (s : string) : list string :=
  match s with
  | EmptyString => [EmptyString]
  | String c t =>
      if Ascii.eqb c sep then EmptyString :: split_on sep t
      else match split_on sep t with
           | [] => [String c EmptyString]
           | h :: r => String c h :: r
           end
  end.

(** The order of tuples of path components. *)
Fixpoint parts_leb (a b : list string) : bool :=
  match a, b with
  | [], _ => true
  | _ :: _, [] => false
  | x :: a', y :: b' =>
      match String.compare x y with
      | Lt => true
      | Gt => false
      | Eq => parts_leb a' b'
      end
  end.

(** [p <= q] on [Path] objects. *)
Definition path_leb (p q : string) : bool :=
  parts_leb (split_on "/" p) (split_on "/" q).

Fixpoint insert_path (x : string) (l : list string) : list string :=
  match l with
  | [] => [x]
  | y :: t => if path_leb x y then x :: y :: t else y :: insert_path x t
  end.

(** [sorted(paths)] *)
Definition sorted_paths (l : list string) : list string := fold_right insert_path [] l.

(** A file lies somewhere below [directory]. *)
Definition is_under (directory p : string) : bool :=
  if String.eqb directory "." then negb (String.prefix "/" p)
  else if endswith directory "/" then String.prefix directory p
  else String.prefix (directory ++ "/")%string p.

(** [directory.rglob('*' + suffix)] *)
Definition rglob (fs : filesystem) (directory suffix : string) : list string :=
  filter (fun p => is_under directory p = true
                   ∧ endswith (path_name p) suffix = true)
         (map fst (map_to_list fs)).

(** [find_mask_files] *)
Definition find_mask_files (fs : filesystem) (directory : string) : list string :=
  let all_files := rglob fs directory "_seg.npy" in
  let mask_files :=
    filter (fun f => String.prefix "._" (path_name f) = false) all_files in
  sorted_paths mask_files.

(** ** The loop of [main] *)

(** The key of [stats] that a status increments. *)
Definition status_name (s : convert_status) : string :=
  match s with
  | converted _ _ => "converted"
  | already_cellpose => "already_cellpose"
  | no_tif => "no_tif"
  | unknown_format => "unknown_format"
  | error => "error"
  end.

Definition stats_keys : list string :=
  ["converted"; "already_cellpose"; "no_tif"; "unknown_format"; "error"].

(** The [stats] literal. *)
Definition stats_init : gmap string nat :=
  <["converted" := O]> (
  <["already_cellpose" := O]> (
  <["no_tif" := O]> (
  <["unknown_format" := O]> (
  <["error" := O]> ∅)))).

(** [stats[status] += 1] *)
Definition bump (stats : gmap string nat) (status : string) : gmap string nat :=
  <[status := S (default O (stats !! status))]> stats.

(** The [for] loop of [main] over the files found. *)
Fixpoint convert_each (mask_files : list string) (dry_run backup : bool)
    (stats : gmap string nat) (fs : filesystem) : gmap string nat * filesystem :=
  match mask_files with
  | [] => (stats, fs)
  | mask_path :: rest =>
      let '(status, fs') := convert_file mask_path dry_run backup fs in
      convert_each rest dry_run backup (bump stats (status_name status)) fs'
  end.

(** [main] from the scan of the directory on; without mask files it
    returns before it has any statistics. *)
Definition main_scan_and_convert (directory : string) (dry_run backup : bool)
    (fs : filesystem) : option (gmap string nat) * filesystem :=
  match find_mask_files fs directory with
  | [] => (None, fs)
  | mask_files =>
      let '(stats, fs') := convert_each mask_files dry_run backup stats_init fs in
      (Some stats, fs')
  end.

(** The number of files the statistics account for. *)
Definition stats_total (stats : gmap string nat) : nat :=
  fold_right Nat.add O (map (fun k => default O (stats !! k)) stats_keys).

(** ** [_create_mask_overlay] *)

(** One turn of the loop: the pixels of the instance take its colour and
    full opacity in the four channels of the overlay. *)
Definition paint_region (masks overlay : ndarray) (mask_id : Z) : ndarray :=
  let color := color_for (dtype_of masks) mask_id in
  NdArray (dtype_of overlay) (shape overlay)
    (imap (fun j u =>
             if default 0 (data masks !! (j / 4)%nat) =? mask_id    (* mask_region *)
             then default 0 ((color ++ [255]) !! (j mod 4)%nat)
             else u)
          (data overlay)).

(** [ImageCanvas._create_mask_overlay]: the RGBA buffer handed to
    [QImage]; [None] is the ValueError of [height, width = shape]. *)
Definition _create_mask_overlay (masks : ndarray) : option ndarray :=
  match shape masks with
  | [height; width] =>
      let overlay := np_zeros [height; width; 4%nat] np_uint8 in
      Some (fold_left (paint_region masks) (positive_ids masks) overlay)
  | _ => None
  end.

(** ** Vocabulary of the session invariants *)

(** Every cell of the raster is below [n]. *)
Definition ids_below (n : Z) (m : ndarray) : Prop := Forall (fun v => v < n) (data m).

(** The counter is above every ID of the raster and of every snapshot. *)
Definition ids_fresh (w : MainWindow) : Prop :=
  1 <= next_mask_id (canvas w)
  /\ (forall m, masks (canvas w) = Some m -> ids_below (next_mask_id (canvas w)) m)
  /\ Forall (ids_below (next_mask_id (canvas w))) (undo_stack w).

(** The raster and every snapshot have the leading dimensions of the
    image; without an image there is neither raster nor snapshot. *)
Definition raster_fits_image (w : MainWindow) : Prop :=
  match image (canvas w) with
  | Some (h, wd) =>
      (exists m, masks (canvas w) = Some m /\ shape2 m = [h; wd])
      /\ Forall (fun m => shape2 m = [h; wd]) (undo_stack w)
  | None => masks (canvas w) = None /\ undo_stack w = []
  end.

(** The raster and the counter that [load_image] installs for an image of
    [h] by [w] pixels. *)
Definition loaded_pair (fs : filesystem) (p : string) (h w : nat) (next_id : Z)
  : ndarray * Z :=
  if path_exists fs (_get_mask_path p)
  then load_existing_masks fs (_get_mask_path p) (np_zeros [h; w] np_int32) next_id
  else (np_zeros [h; w] np_int32, next_id).

(** A name carries one of the four TIFF extensions. *)
Definition has_tiff_extension (p : string) : Prop :=
  exists ext, ext ∈ tiff_extensions /\ endswith (path_name p) ext = true.

(** The part of the window that the mask engine owns: the image
    dimensions, the counter, the raster and the undo stack. *)
Definition store : Type := option (nat * nat) * Z * option ndarray * list ndarray.

Definition store_of (w : MainWindow) : store :=
  (image (canvas w), next_mask_id (canvas w), masks (canvas w), undo_stack w).

(** The stack after [append] and the cap. *)
Definition pushed (stack : list ndarray) (m : ndarray) : list ndarray :=
  if (max_undo_steps <? length (stack ++ [m]))%nat
  then tail (stack ++ [m]) else stack ++ [m].

(** What one action can do to the store. The index tells whether the
    step installed another image and kept the undo stack. *)
Inductive store_step : bool -> store -> store -> Prop :=
| step_same s : store_step false s s
| step_paint img n m nm stack h wd :
    shape m = [h; wd] ->
    store_step false (img, n, Some m, stack)
      (img, n + 1, Some (assign_where_one m nm n),
       pushed stack (assign_where_one m nm n))
| step_erase img n m v stack :
    store_step false (img, n, Some m, stack)
      (img, n, Some (clear_equal m v), pushed stack m)
| step_undo img n old m rest :
    store_step false (img, n, old, rest ++ [m]) (img, n, Some m, rest)
| step_switch img n old stack h wd m n' :
    shape2 m = [h; wd] ->
    (1 <= n -> 1 <= n' /\ ids_below n' m) ->
    store_step false (img, n, old, stack) (Some (h, wd), n', Some m, [])
| step_drop img n old stack h wd m n' :
    shape2 m = [h; wd] ->
    (1 <= n -> 1 <= n' /\ ids_below n' m) ->
    store_step true (img, n, old, stack) (Some (h, wd), n', Some m, stack).

(** Consecutive points are more than two pixels apart. *)
Definition spaced (l : list point) : Prop :=
  forall i p q, l !! i = Some p -> l !! S i = Some q -> far_enough q p = true.

End Sessions_and_batch.

Abbreviation polygon_of W := (current_polygon (canvas (window W))).

(* ===================================================================== *)
(** * A reference implementation of the OpenCV and NumPy interfaces *)
(* ===================================================================== *)

(** Used to run the model on concrete sessions. The fill is the bounding
    box of the points, which is what [cv2.fillPoly] paints for an
    axis-aligned rectangle given by its corners; the contour of a blob is
    the list of its pixels that touch the outside through an edge, which
    is its outer boundary when the blob has no hole; a drawn colour is
    clipped to the range of the image's dtype; colours follow the sector
    formula of the HSV cone, rounded to the nearest integer. Of the
    Python lists, those of ints that fit int64 are counted, and the
    others are taken to make NumPy raise; no session has such a list. *)
Module Reference.

Definition box_covers (pts : list point) (x y : nat) : bool :=
  match pts with
  | [] => false
  | (x0, y0) :: rest =>
      let xmin := fold_right Z.min x0 (map fst rest) in
      let xmax := fold_right Z.max x0 (map fst rest) in
      let ymin := fold_right Z.min y0 (map snd rest) in
      let ymax := fold_right Z.max y0 (map snd rest) in
      (xmin <=? Z.of_nat x) && (Z.of_nat x <=? xmax)
      && (ymin <=? Z.of_nat y) && (Z.of_nat y <=? ymax)
  end.

Definition is_set (img : ndarray) (x y : Z) : bool :=
  match shape img with
  | [h; w] =>
      (0 <=? x) && (x <? Z.of_nat w) && (0 <=? y) && (y <? Z.of_nat h)
      && negb (default 0 (data img !! Z.to_nat (y * Z.of_nat w + x)) =? 0)
  | _ => false
  end.

Definition on_edge (img : ndarray) (x y : Z) : bool :=
  is_set img x y
  && negb (is_set img (x - 1) y && is_set img (x + 1) y
           && is_set img x (y - 1) && is_set img x (y + 1)).

Definition edge_pixels (img : ndarray) : option (list contour) :=
  match shape img with
  | [h; w] =>
      let idx := seq 0 (h * w) in
      let pts := map (fun i => (Z.of_nat (i mod w), Z.of_nat (i / w))) idx in
      Some [filter (fun p => on_edge img (fst p) (snd p) = true) pts]
  | _ => None
  end.

(** A colour is clipped to the range of the dtype, not wrapped. *)
Definition saturate (t : dtype) (z : Z) : Z :=
  match t with
  | np_bool => Z.max 0 (Z.min z 1)
  | np_uint8 => Z.max 0 (Z.min z (2 ^ 8 - 1))
  | np_uint16 => Z.max 0 (Z.min z (2 ^ 16 - 1))
  | np_int32 => Z.max (- 2 ^ 31) (Z.min z (2 ^ 31 - 1))
  | np_int64 => Z.max (- 2 ^ 63) (Z.min z (2 ^ 63 - 1))
  end.

Definition paint_pixels (img : ndarray) (cs : list contour) (color : Z) : ndarray :=
  match shape img with
  | [h; w] =>
      NdArray (dtype_of img) (shape img)
        (imap (fun i u =>
                 if bool_decide ((Z.of_nat (i mod w), Z.of_nat (i / w)) ∈ concat cs)
                 then saturate (dtype_of img) color else u) (data img))
  | _ => img
  end.

(** [num / den] rounded to the nearest integer, halves upwards. *)
Definition round_div (num den : Z) : Z := (2 * num + den) / (2 * den).

Definition hsv2rgb (hsv : Z * Z * Z) : Z * Z * Z :=
  let '(h, s, v) := hsv in
  let sector := h / 30 in
  let f := h mod 30 in
  let p := round_div (v * (255 - s)) 255 in
  let q := round_div (v * (255 * 30 - s * f)) (255 * 30) in
  let t := round_div (v * (255 * 30 - s * (30 - f))) (255 * 30) in
  match sector with
  | 0 => (v, t, p)
  | 1 => (q, v, p)
  | 2 => (p, v, t)
  | 3 => (p, q, v)
  | 4 => (t, p, v)
  | _ => (v, p, q)
  end.

#[export] Instance cv : OpenCV := {|
  poly_covers := box_covers;
  findContours := edge_pixels;
  drawContours := paint_pixels;
  cvtColor_HSV2RGB := hsv2rgb
|}.

Definition int64_of (x : pyobj) : option Z :=
  match x with
  | PyInt z => if fits np_int64 z then Some z else None
  | _ => None
  end.

Definition count_ints (l : list pyobj) : option nat :=
  zs ← mapM int64_of l;
  Some (length (fold_right insert_unique [] zs)).

#[export] Instance numpy : NumPy := {|
  len_unique_list := count_ints
|}.

End Reference.

(* ===================================================================== *)
(** * Sample sessions *)
(* ===================================================================== *)

(** A disk with five images and three legacy containers, and the sessions
    that the handlers produce on it. *)
Module Sessions.
#[local] Existing Instance Reference.cv.
#[local] Existing Instance Reference.numpy.

(** A simple-array container: instance 7 on the four left columns. *)
Definition block7 : ndarray :=
  NdArray np_int64 [4; 6]%nat
    [7; 7; 7; 7; 0; 0;
     7; 7; 7; 7; 0; 0;
     7; 7; 7; 7; 0; 0;
     7; 7; 7; 7; 0; 0].

(** A simple-array container in which no pixel is background. *)
Definition no_background : ndarray := NdArray np_int64 [2; 2]%nat [1; 1; 1; 2].

Definition disk0 : filesystem :=
  <["/data/a.tif" := FImage 4 6]> (
  <["/data/b.tif" := FImage 4 6]> (
  <["/data/b_seg.npy" := FNpy (NumArray block7)]> (
  <["/data/c.tif" := FImage 2 2]> (
  <["/data/c_seg.npy" := FNpy (NumArray no_background)]> (
  <["/data/d.tif" := FImage 4 4]> (
  <["/data/e_seg.tif" := FImage 4 6]> (
  <["/data/e_seg_seg.npy" := FNpy (NumArray block7)]> ∅))))))).

(** The application just started. *)
Definition start : World := {| window := MainWindow_init; disk := disk0 |}.

Definition pointer (x y : Z) (modifier : bool) : mouse_event :=
  {| ev_x := x; ev_y := y; ev_pos := (x, y);
     left_button := true; ctrl_or_meta := modifier |}.

(** Press at (x0, y0) and drag through the other three corners of the
    box: the session just before the button is released. *)
Definition drag_box (x0 y0 x1 y1 : Z) (W : World) : World :=
  mouseMoveEvent (pointer x0 y1 false)
    (mouseMoveEvent (pointer x1 y1 false)
      (mouseMoveEvent (pointer x1 y0 false)
        (mousePressEvent (pointer x0 y0 false) W))).

(** The whole gesture. *)
Definition draw_box (x0 y0 x1 y1 : Z) (W : World) : World :=
  snd (mouseReleaseEvent (pointer x0 y1 false) (drag_box x0 y0 x1 y1 W)).

(** A click with the delete modifier held. *)
Definition click_delete (x y : Z) (W : World) : World :=
  snd (mouseReleaseEvent (pointer x y true) (mousePressEvent (pointer x y true) W)).

Definition on_a : World := snd (load_image "/data/a.tif" start).
Definition on_b : World := snd (load_image "/data/b.tif" start).
Definition on_d : World := snd (load_image "/data/d.tif" start).

Definition blank (h w : nat) : ndarray := np_zeros [h; w] np_int32.

(** The raster that [load_image] builds from [block7]. *)
Definition block7_loaded : ndarray := astype np_int32 block7.

(** Image b while a box is dragged over columns 2 to 5, and after it. *)
Definition dragging_on_b : World := drag_box 2 0 5 3 on_b.

(** Image b while a box is dragged inside instance 7, and after it. *)
Definition dragging_inside_7 : World := drag_box 0 0 3 3 on_b.
Definition drawn_inside_7 : World := draw_box 0 0 3 3 on_b.

(** Image a, blank, after a box is drawn on it. *)
Definition painted_a : World := draw_box 0 0 3 3 on_a.

(** Image d after a box is drawn over the whole frame. *)
Definition painted_d : World := draw_box 0 0 3 3 on_d.

(** Image b after its only instance is erased, and the session after
    image a is then dropped on the canvas. *)
Definition erased_b : World := click_delete 1 1 on_b.
Definition dropped_a : World := dropEvent ["/data/a.tif"] erased_b.

(** Image b after a box is drawn over columns 2 to 5. *)
Definition painted_b : World := draw_box 2 0 5 3 on_b.

Definition square_behind_7 : ndarray :=
  NdArray np_int32 [4; 6]%nat
    [7; 7; 7; 7; 8; 8;
     7; 7; 7; 7; 8; 8;
     7; 7; 7; 7; 8; 8;
     7; 7; 7; 7; 8; 8].

Definition square_on_blank : ndarray :=
  NdArray np_int32 [4; 6]%nat
    [1; 1; 1; 1; 0; 0;
     1; 1; 1; 1; 0; 0;
     1; 1; 1; 1; 0; 0;
     1; 1; 1; 1; 0; 0].

Definition full_frame : ndarray := NdArray np_int32 [4; 4]%nat (replicate 16 1).

End Sessions.

(** More disks and sessions, for the further properties. *)
Module Scenarios.
#[local] Existing Instance Reference.cv.
#[local] Existing Instance Reference.numpy.
Import Sessions.

(** [disk0] with an image whose container has other dimensions, and with
    a container that has no image. *)
Definition disk1 : filesystem :=
  <["/data/f.tif" := FImage 2 2]> (
  <["/data/f_seg.npy" := FNpy (NumArray block7)]> (
  <["/data/g_seg.npy" := FNpy (NumArray block7)]> disk0)).

(** Image b with fifty snapshots on the undo stack. *)
Definition full_stack_on_b : MainWindow :=
  set_undo_stack (replicate 50 (blank 4 6)) (window on_b).

(** The outlines OpenCV draws for a raster it accepts. *)
Definition outlines_of (m : ndarray) : ndarray := default m (generate_outlines m).

(** Image a after a press without a drag. *)
Definition one_point_on_a : World := mousePressEvent (pointer 0 0 false) on_a.

(** Open image b, draw a box over columns 2 to 5, undo, erase at (0, 0),
    undo with the keyboard, and go to the next file. *)
Definition a_session : list action :=
  [ OpenImage "/data/b.tif";
    Press (pointer 2 0 false); Move (pointer 5 0 false);
    Move (pointer 5 3 false); Move (pointer 2 3 false);
    Release (pointer 2 3 false);
    ClickUndo;
    Press (pointer 0 0 true); Release (pointer 0 0 true);
    WindowKeyDown Key_Z true;
    CanvasKeyDown Key_Right ].

(** The statistics of a batch over [disk0]. *)
Definition batch_stats : gmap string nat :=
  default stats_init (fst (main_scan_and_convert "/data" false false disk0)).

End Scenarios.

(* ===================================================================== *)
(** * Properties *)
(* ===================================================================== *)

Section Properties.
Context `{cv : OpenCV} `{numpy : NumPy}.

(** ** The undo stack *)

Lemma py_pop_snoc {A} (l : list A) (x : A) : py_pop (l ++ [x]) = Some (x, l).
Proof. unfold py_pop. rewrite rev_app_distr. simpl. by rewrite rev_involutive. Qed.

Lemma add_to_undo_stack_canvas w : canvas (add_to_undo_stack w) = canvas w.
Proof.
  unfold add_to_undo_stack. destruct (masks (canvas w)); [|done].
  by destruct (_ <? _)%nat.
Qed.

(** The snapshot just pushed is the one the next pop returns, whether or
    not the cap made the stack drop its oldest entry. *)
Lemma add_to_undo_stack_pop w m :
  masks (canvas w) = Some m ->
  exists rest, py_pop (undo_stack (add_to_undo_stack w)) = Some (m, rest).
Proof.
  intros Hm. unfold add_to_undo_stack. rewrite Hm.
  destruct (_ <? _)%nat eqn:Hlen; simpl.
  - destruct (undo_stack w) as [|a l] eqn:Hs.
    + apply Nat.ltb_lt in Hlen. simpl in Hlen. unfold max_undo_steps in Hlen. lia.
    + simpl. exists l. apply py_pop_snoc.
  - eexists. apply py_pop_snoc.
Qed.

(** The stack never grows beyond its cap. *)
Lemma add_to_undo_stack_bounded w :
  (length (undo_stack w) <= max_undo_steps)%nat ->
  (length (undo_stack (add_to_undo_stack w)) <= max_undo_steps)%nat.
Proof.
  intros Hb. unfold add_to_undo_stack. destruct (masks (canvas w)); [|done].
  destruct (_ <? _)%nat eqn:Hlen; simpl.
  - rewrite length_tl, length_app. simpl. lia.
  - apply Nat.ltb_ge in Hlen. done.
Qed.

(** Popping an empty stack changes nothing. *)
Lemma undo_empty W : undo_stack (window W) = [] -> undo W = W.
Proof. intros H. unfold undo. by rewrite H. Qed.

(** ** Saving *)

Lemma insert_unique_zero l :
  (l = [] \/ l = [0]) -> insert_unique 0 l = [0].
Proof. by intros [-> | ->]. Qed.

Lemma np_unique_all_zero a :
  Forall (fun v => v = 0) (data a) -> np_unique a = [] \/ np_unique a = [0].
Proof.
  unfold np_unique. induction 1 as [|v l -> _ IH]; [by left|].
  right. simpl. by apply insert_unique_zero.
Qed.

Lemma path_exists_false (fs : filesystem) p :
  path_exists fs p = false -> fs !! p = None.
Proof.
  unfold path_exists. intros H. apply bool_decide_eq_false in H.
  destruct (fs !! p) eqn:E; [|done]. destruct H. by eexists.
Qed.


(** ** Erasing *)

Lemma norm_index_in_range n i :
  0 <= i < Z.of_nat n -> norm_index n i = Some (Z.to_nat i).
Proof.
  intros Hi. unfold norm_index.
  destruct (0 <=? i) eqn:E1; [|lia]. destruct (i <? Z.of_nat n) eqn:E2; [done|lia].
Qed.

(** Inside the bounds the read is the cell of the row-major buffer, and
    it exists. *)
Lemma getitem2_in_bounds m h w x y :
  shape m = [h; w] -> well_formed m ->
  0 <= x < Z.of_nat w -> 0 <= y < Z.of_nat h ->
  exists v, getitem2 m y x = Some v
            /\ data m !! (Z.to_nat y * w + Z.to_nat x)%nat = Some v.
Proof.
  intros Hs Hwf Hx Hy. unfold getitem2. rewrite Hs.
  rewrite (norm_index_in_range h y Hy), (norm_index_in_range w x Hx). simpl.
  destruct (lookup_lt_is_Some_2 (data m) (Z.to_nat y * w + Z.to_nat x)%nat) as [v Hv].
  - unfold well_formed in Hwf. rewrite Hwf, Hs. simpl. nia.
  - eauto.
Qed.

Lemma in_bounds_test x y (h w : nat) :
  ((0 <=? x) && (x <? Z.of_nat w) && (0 <=? y) && (y <? Z.of_nat h)) = true
  <-> (0 <= x < Z.of_nat w /\ 0 <= y < Z.of_nat h).
Proof. rewrite !andb_true_iff. lia. Qed.

(** C10. Outside the raster, [_delete_mask_at] reports the coordinates as
    out of bounds without reading the raster: no exception is raised,
    and the raster, the next ID, the undo stack and the disk are all as
    before. *)
Theorem delete_out_of_bounds_is_noop x y W m (H Wd : nat) :
  masks (canvas (window W)) = Some m ->
  shape m = [H; Wd] ->
  (x < 0 \/ Z.of_nat Wd <= x \/ y < 0 \/ Z.of_nat H <= y) ->
  _delete_mask_at x y W = (OutOfBounds, W).
Proof.
  intros Hm Hs Hout. unfold _delete_mask_at. rewrite Hm, Hs.
  destruct (_ && _) eqn:E; [|done].
  apply in_bounds_test in E. lia.
Qed.

Lemma clear_equal_lookup m v i u :
  data m !! i = Some u ->
  data (clear_equal m v) !! i = Some (if u =? v then 0 else u).
Proof. intros Hu. unfold clear_equal. simpl. by rewrite list_lookup_fmap, Hu. Qed.

(** C6. At a pixel inside the raster: when it holds an instance ID (a
    positive label), [_delete_mask_at] reports that ID as deleted and the
    new raster has the same shape, with 0 in exactly the cells that held
    the ID and every other cell as before; when it holds 0 it reports
    that there is no mask and the whole session is unchanged. In a
    raster without negative cells these two cases are the only ones. *)
Theorem delete_at_pixel x y W m (H Wd : nat) :
  masks (canvas (window W)) = Some m ->
  shape m = [H; Wd] ->
  well_formed m ->
  0 <= x < Z.of_nat Wd ->
  0 <= y < Z.of_nat H ->
  exists v, getitem2 m y x = Some v /\
    (0 < v ->
       exists m', fst (_delete_mask_at x y W) = Deleted v
         /\ masks (canvas (window (snd (_delete_mask_at x y W)))) = Some m'
         /\ shape m' = shape m
         /\ length (data m') = length (data m)
         /\ forall i u, data m !! i = Some u ->
               data m' !! i = Some (if u =? v then 0 else u)) /\
    (v = 0 -> _delete_mask_at x y W = (NoMaskHere, W)) /\
    (Forall (fun u => 0 <= u) (data m) -> 0 < v \/ v = 0).
Proof.
  intros Hm Hs Hwf Hx Hy.
  destruct (getitem2_in_bounds m H Wd x y Hs Hwf Hx Hy) as (v & Hget & Hcell).
  exists v. split; [done|].
  assert (Hcases : Forall (fun u => 0 <= u) (data m) -> 0 < v \/ v = 0).
  { intros Hnn. pose proof (proj1 (Forall_lookup _ _) Hnn _ _ Hcell). simpl in *. lia. }
  assert (Hin : ((0 <=? x) && (x <? Z.of_nat Wd) && (0 <=? y) && (y <? Z.of_nat H)) = true)
    by (apply in_bounds_test; lia).
  unfold _delete_mask_at. rewrite Hm, Hs, Hin, Hget. split; [|split; [|done]].
  - intros Hv. destruct (0 <? v) eqn:E; [|lia].
    exists (clear_equal m v). simpl. repeat split; try done.
    + unfold clear_equal. simpl. by rewrite length_map.
    + intros i u. apply clear_equal_lookup.
  - intros ->. done.
Qed.

(** A label that is not positive is treated like background. *)
Lemma delete_at_non_positive x y W m v :
  masks (canvas (window W)) = Some m ->
  getitem2 m y x = Some v -> v <= 0 ->
  snd (_delete_mask_at x y W) = W.
Proof.
  intros Hm Hget Hv. unfold _delete_mask_at. rewrite Hm.
  destruct (shape m) as [|h [|w [|]]]; try done.
  destruct (_ && _); [|done]. rewrite Hget.
  destruct (0 <? v) eqn:E; [lia|done].
Qed.

(** ** Painting *)


Lemma surviving_fill_lookup m pts h w i :
  data (surviving_fill m pts h w) !! i =
    if bool_decide (i < size_of [h; w])%nat then
      Some (if 0 <? default 0 (data m !! i) then 0
            else if poly_covers pts (i mod w)%nat (i / w)%nat then 1 else 0)
    else None.
Proof.
  unfold surviving_fill, clear_where_positive, cv2_fillPoly, np_zeros.
  cbn [shape data dtype_of]. rewrite !list_lookup_imap.
  case_bool_decide as Hi.
  - rewrite lookup_replicate_2 by exact Hi. simpl.
    destruct (0 <? _); [done|]. by destruct (poly_covers _ _ _).
  - rewrite (lookup_ge_None_2 (replicate _ _)) by (rewrite length_replicate; lia). done.
Qed.

(** A surviving cell is never one that already carried an instance. *)
Lemma surviving_fill_positive m pts h w i v :
  data m !! i = Some v -> 0 < v ->
  default 0 (data (surviving_fill m pts h w) !! i) = 0.
Proof.
  intros Hv Hpos. rewrite surviving_fill_lookup, Hv. simpl.
  case_bool_decide; [|done]. simpl. destruct (0 <? v) eqn:E; [done|lia].
Qed.

Lemma assign_where_one_lookup m nm id i v :
  data m !! i = Some v ->
  data (assign_where_one m nm id) !! i
    = Some (if default 0 (data nm !! i) =? 1 then id else v).
Proof. intros Hv. unfold assign_where_one. simpl. by rewrite list_lookup_imap, Hv. Qed.

(** What a paint does to the raster: nothing, or the assignment of the
    next ID to the surviving fill. *)
Lemma create_raster_cases w m :
  masks (canvas w) = Some m ->
  masks (canvas (snd (_create_mask_from_polygon w))) = Some m
  \/ exists h wd,
       shape m = [h; wd]
       /\ masks (canvas (snd (_create_mask_from_polygon w)))
            = Some (assign_where_one m
                      (surviving_fill m (current_polygon (canvas w)) h wd)
                      (next_mask_id (canvas w))).
Proof.
  intros Hm. unfold _create_mask_from_polygon.
  destruct (_ <? 3)%nat; [by left|]. rewrite Hm.
  destruct (shape m) as [|h [|wd [|]]] eqn:Hs; try by left.
  destruct (negb _); [by left|].
  destruct (0 <? np_sum _); [|by left].
  destruct (fits _ _); [|by left].
  right. exists h, wd. split; [done|].
  cbn [snd]. by rewrite add_to_undo_stack_canvas.
Qed.

(** C2. A paint never touches a pixel that carries an instance. For every
    raster: each cell with a positive label keeps it, the shape is kept,
    and a cell whose value changes held no instance and now holds the new
    ID. For a raster without negative cells (0 for background, positive
    IDs), this reads: every nonzero cell is unchanged, and only
    background cells are written. *)
Theorem paint_keeps_existing_instances w m :
  masks (canvas w) = Some m ->
  exists m',
    masks (canvas (snd (_create_mask_from_polygon w))) = Some m'
    /\ shape m' = shape m
    /\ length (data m') = length (data m)
    /\ (forall i v, data m !! i = Some v -> 0 < v -> data m' !! i = Some v)
    /\ (forall i v v', data m !! i = Some v -> data m' !! i = Some v' -> v' <> v ->
          v <= 0 /\ v' = next_mask_id (canvas w))
    /\ (Forall (fun v => 0 <= v) (data m) ->
        (forall i v, data m !! i = Some v -> v <> 0 -> data m' !! i = Some v)
        /\ (forall i v v', data m !! i = Some v -> data m' !! i = Some v' -> v' <> v ->
              v = 0)).
Proof.
  intros Hm.
  assert (Hgen : exists m',
    masks (canvas (snd (_create_mask_from_polygon w))) = Some m'
    /\ shape m' = shape m
    /\ length (data m') = length (data m)
    /\ (forall i v, data m !! i = Some v -> 0 < v -> data m' !! i = Some v)
    /\ (forall i v v', data m !! i = Some v -> data m' !! i = Some v' -> v' <> v ->
          v <= 0 /\ v' = next_mask_id (canvas w))).
  { destruct (create_raster_cases w m Hm) as [Hsame | (h & wd & Hs & Hnew)].
    - exists m. repeat split; try done; intros; congruence.
    - eexists. split; [exact Hnew|]. split; [done|]. split.
      { unfold assign_where_one. simpl. by rewrite length_imap. }
      split.
      + intros i v Hv Hpos. rewrite (assign_where_one_lookup _ _ _ _ _ Hv).
        by rewrite (surviving_fill_positive _ _ _ _ _ _ Hv Hpos).
      + intros i v v' Hv Hv' Hne.
        rewrite (assign_where_one_lookup _ _ _ _ _ Hv) in Hv'.
        destruct (_ =? 1) eqn:E; [|congruence].
        split; [|congruence].
        destruct (Z_lt_le_dec 0 v) as [Hpos|]; [|done].
        rewrite (surviving_fill_positive _ _ _ _ _ _ Hv Hpos) in E. done. }
  destruct Hgen as (m' & Hm' & Hshape & Hlen & Hkeep & Hwritten).
  exists m'. do 5 (split; [done|]). intros Hnn.
  assert (Hcell : forall i v, data m !! i = Some v -> 0 <= v).
  { intros i v Hv. eapply (proj1 (Forall_lookup _ _)); eauto. }
  split.
  - intros i v Hv Hnz. apply Hkeep; [done|]. specialize (Hcell i v Hv). lia.
  - intros i v v' Hv Hv' Hne.
    destruct (Hwritten i v v' Hv Hv' Hne) as [Hle _].
    specialize (Hcell i v Hv). lia.
Qed.

Lemma np_sum_all_zero a : Forall (fun v => v = 0) (data a) -> np_sum a = 0.
Proof.
  unfold np_sum. induction 1 as [|v l -> _ IH]; [done|]. simpl. by rewrite IH.
Qed.


Lemma surviving_fill_empty m pts h wd :
  covered_by_instances m pts h wd -> np_sum (surviving_fill m pts h wd) = 0.
Proof.
  intros Hcov. apply np_sum_all_zero. apply Forall_lookup. intros i u Hu.
  rewrite surviving_fill_lookup in Hu. case_bool_decide as Hi; [|done].
  injection Hu as <-. simpl in Hi.
  destruct (0 <? _) eqn:E; [done|].
  destruct (poly_covers _ _ _) eqn:Hc; [|done]. exfalso.
  assert (Hwd : (wd <> 0)%nat) by lia.
  destruct (Hcov (i mod wd)%nat (i / wd)%nat) as (v & Hv & Hpos); [| |done|].
  - by apply Nat.mod_upper_bound.
  - apply Nat.Div0.div_lt_upper_bound. lia.
  - replace (i / wd * wd + i mod wd)%nat with i in Hv
      by (rewrite (Nat.div_mod_eq i wd) at 1; lia).
    rewrite Hv in E. simpl in E. lia.
Qed.

Lemma create_overlapped w m h wd :
  masks (canvas w) = Some m ->
  shape m = [h; wd] ->
  (3 <= length (current_polygon (canvas w)))%nat ->
  forallb point_fits (current_polygon (canvas w)) = true ->
  covered_by_instances m (current_polygon (canvas w)) h wd ->
  _create_mask_from_polygon w = (CompletelyOverlapped, w).
Proof.
  intros Hm Hs Hlen Hfit Hcov. unfold _create_mask_from_polygon.
  destruct (_ <? 3)%nat eqn:E; [apply Nat.ltb_lt in E; lia|].
  rewrite Hm, Hs, Hfit. simpl negb. cbv iota.
  fold (surviving_fill m (current_polygon (canvas w)) h wd).
  by rewrite (surviving_fill_empty _ _ _ _ Hcov).
Qed.

(** [save_masks] reads the image path and the raster only. *)
Lemma save_masks_reads c c' fs :
  image_path c = image_path c' -> masks c = masks c' ->
  save_masks c fs = save_masks c' fs.
Proof. intros Hp Hm. unfold save_masks. by rewrite Hp, Hm. Qed.

(** When every pixel that the fill of the drawn polygon covers already
    carries an instance, [_create_mask_from_polygon] reports a complete
    overlap and changes nothing; the gesture that called it ends with the
    raster, the next ID and the undo stack as they were, but it has run
    [save_masks] all the same, on that unchanged raster. *)
Theorem overlapped_paint_changes_nothing_then_saves e W m (h wd : nat) :
  is_Some (image (canvas (window W))) ->
  is_cmd_pressed (canvas (window W)) = false ->
  is_panning (canvas (window W)) = false ->
  is_drawing (canvas (window W)) = true ->
  left_button e = true ->
  masks (canvas (window W)) = Some m ->
  shape m = [h; wd] ->
  (3 <= length (current_polygon (canvas (window W))))%nat ->
  forallb point_fits (current_polygon (canvas (window W))) = true ->
  covered_by_instances m (current_polygon (canvas (window W))) h wd ->
  _create_mask_from_polygon (window W) = (CompletelyOverlapped, window W)
  /\ fst (mouseReleaseEvent e W) = None
  /\ masks (canvas (window (snd (mouseReleaseEvent e W)))) = Some m
  /\ next_mask_id (canvas (window (snd (mouseReleaseEvent e W))))
      = next_mask_id (canvas (window W))
  /\ undo_stack (window (snd (mouseReleaseEvent e W))) = undo_stack (window W)
  /\ disk (snd (mouseReleaseEvent e W))
      = snd (save_masks (canvas (window W)) (disk W)).
Proof.
  intros [img Himg] Hcmd Hpan Hdraw Hleft Hm Hs Hlen Hfit Hcov.
  split; [by eapply create_overlapped|].
  unfold mouseReleaseEvent. rewrite Himg, Hcmd, Hpan, Hdraw, Hleft. simpl andb. cbv iota.
  destruct (3 <=? _)%nat eqn:E; [|apply Nat.leb_gt in E; lia].
  rewrite (create_overlapped _ m h wd) by done.
  simpl. by rewrite Hm.
Qed.

(** ** Paths *)

Example mask_path_example :
  _get_mask_path "/data/run1/cell.01.tif" = "/data/run1/cell.01_seg.npy".
Proof. reflexivity. Qed.

Example mask_path_no_dir : _get_mask_path "img.tiff" = "img_seg.npy".
Proof. reflexivity. Qed.

Lemma append_cons c (a b : string) : (String c a ++ b = String c (a ++ b))%string.
Proof. reflexivity. Qed.

Lemma append_nil (b : string) : (EmptyString ++ b = b)%string.
Proof. reflexivity. Qed.

Lemma append_cancel_l (a b c : string) : (a ++ b = a ++ c)%string -> b = c.
Proof.
  induction a as [|x a IH]; [done|]. rewrite !append_cons.
  intros H. injection H as H. auto.
Qed.

Lemma split_last_app sep s :
  (fst (split_last sep s) ++ snd (split_last sep s))%string = s.
Proof.
  induction s as [|c t IH]; [done|]. simpl.
  destruct (split_last sep t) as [a b]. simpl in IH.
  destruct (negb _) eqn:E; simpl.
  - rewrite append_cons. congruence.
  - apply negb_false_iff, String.eqb_eq in E. subst a. rewrite append_nil in IH. subst b.
    by destruct (Ascii.eqb c sep).
Qed.

(** The first part is empty or ends with the separator. *)
Lemma split_last_head sep s :
  fst (split_last sep s) = EmptyString
  \/ exists a, fst (split_last sep s) = (a ++ String sep EmptyString)%string.
Proof.
  induction s as [|c t IH]; [by left|]. simpl.
  destruct (split_last sep t) as [a b]. simpl in IH.
  destruct (negb _) eqn:E; simpl.
  - right. destruct IH as [-> | [a' ->]]; [done|]. by exists (String c a').
  - destruct (Ascii.eqb c sep) eqn:Ec; [|by left].
    right. apply Ascii.eqb_eq in Ec. subst c. by exists EmptyString.
Qed.

Lemma substring_prefix (a b : string) :
  substring 0 (String.length a) (a ++ b) = a.
Proof.
  induction a as [|x a IH]; [by destruct b|].
  rewrite append_cons. simpl. by rewrite IH.
Qed.

Lemma length_append_one a c : String.length (a ++ String c EmptyString) = S (String.length a).
Proof. induction a; [done|]. rewrite append_cons. simpl. congruence. Qed.

Lemma append_assoc (a b c : string) : ((a ++ b) ++ c = a ++ (b ++ c))%string.
Proof. induction a; [done|]. rewrite !append_cons. congruence. Qed.

Lemma append_nil_r (a : string) : (a ++ EmptyString = a)%string.
Proof. induction a; [done|]. rewrite append_cons. congruence. Qed.

(** A name is its stem followed by nothing or by a suffix that starts with a dot. *)
Lemma name_stem_suffix name :
  exists suf, name = (name_stem name ++ suf)%string
    /\ (suf = EmptyString \/ exists b, suf = String "." b).
Proof.
  unfold name_stem.
  pose proof (split_last_app "." name) as Happ.
  pose proof (split_last_head "." name) as Hhead.
  destruct (split_last "." name) as [a b]. simpl in *.
  destruct (_ && _) eqn:E.
  - destruct Hhead as [-> | [a' ->]]; [done|].
    rewrite length_append_one. simpl. rewrite Nat.sub_0_r, substring_prefix.
    exists (String "." b). split; [|right; by eexists].
    by rewrite <- Happ, append_assoc.
  - exists EmptyString. split; [|by left]. by rewrite append_nil_r.
Qed.

Lemma mask_path_differs p : _get_mask_path p <> p.
Proof.
  unfold _get_mask_path, path_stem, path_dir, path_name. intros H.
  pose proof (split_last_app "/" p) as Happ.
  destruct (split_last "/" p) as [d n]. simpl in *.
  destruct (name_stem_suffix n) as (suf & Hn & Hsuf).
  rewrite <- Happ in H. apply append_cancel_l in H.
  assert (Heq : (name_stem n ++ "_seg.npy")%string = (name_stem n ++ suf)%string)
    by congruence.
  apply append_cancel_l in Heq.
  destruct Hsuf as [-> | [b ->]]; discriminate.
Qed.

(** ** Undo after a mutation *)

(** X2. After an erase, undo puts the raster back as it was. *)
Lemma undo_after_erase_restores x y W m id :
  masks (canvas (window W)) = Some m ->
  fst (_delete_mask_at x y W) = Deleted id ->
  masks (canvas (window (undo (snd (_delete_mask_at x y W))))) = Some m.
Proof.
  intros Hm. unfold _delete_mask_at. rewrite Hm.
  destruct (shape m) as [|h [|w [|]]]; try done.
  destruct (_ && _); [|done].
  destruct (getitem2 m y x) as [v|]; [|done].
  destruct (0 <? v); [|done]. intros _. cbn [snd].
  destruct (add_to_undo_stack_pop (window W) m Hm) as [rest Hpop].
  unfold undo. cbn [window undo_stack set_canvas]. by rewrite Hpop.
Qed.

(** After a paint, the snapshot on top of the stack is the raster as
    painted, so undo leaves the raster as it is. *)
Lemma undo_after_paint_keeps_paint w fs id n :
  fst (_create_mask_from_polygon w) = Created id n ->
  masks (canvas (window (undo {| window := snd (_create_mask_from_polygon w);
                                 disk := fs |})))
  = masks (canvas (snd (_create_mask_from_polygon w))).
Proof.
  unfold _create_mask_from_polygon.
  destruct (_ <? 3)%nat; [done|].
  destruct (masks (canvas w)) as [m|]; [|done].
  destruct (shape m) as [|h [|wd [|]]]; try done.
  destruct (negb _); [done|].
  destruct (0 <? np_sum _); [|done].
  destruct (fits _ _); [|done]. intros _. cbn [snd].
  match goal with |- context [add_to_undo_stack ?w'] =>
    destruct (add_to_undo_stack_pop w' (assign_where_one m
      (clear_where_positive
         (cv2_fillPoly (np_zeros [h; wd] np_uint8) (current_polygon (canvas w)) 1) m)
      (next_mask_id (canvas w))) eq_refl) as [rest Hpop];
    rewrite (add_to_undo_stack_canvas w')
  end.
  unfold undo. cbn [window]. by rewrite Hpop.
Qed.

(** ** The next ID after a load *)

Lemma load_existing_masks_next_id (fs : filesystem) mp zeros next_id :
  np_max zeros = None \/ np_max zeros = Some 0 ->
  snd (load_existing_masks fs mp zeros next_id)
  = match np_max (fst (load_existing_masks fs mp zeros next_id)) with
    | Some mx => if 0 <? mx then mx + 1 else next_id
    | None => next_id
    end.
Proof.
  intros Hz.
  assert (Hzeros : next_id = match np_max zeros with
                             | Some mx => if 0 <? mx then mx + 1 else next_id
                             | None => next_id
                             end) by (by destruct Hz as [-> | ->]).
  unfold load_existing_masks.
  destruct (np_load fs mp) as [loaded|]; [|done].
  destruct (masks_candidate loaded) as [a|]; [|done].
  destruct (2 <=? ndim a)%nat; [|done].
  case_bool_decide; [|done].
  destruct (np_max (astype np_int32 a)) as [mx|] eqn:E.
  - destruct (0 <? mx) eqn:E'; simpl; by rewrite E, E'.
  - simpl. by rewrite E.
Qed.

Lemma np_max_zeros shp t : np_max (np_zeros shp t) = None \/ np_max (np_zeros shp t) = Some 0.
Proof.
  unfold np_max, np_zeros. simpl. destruct (size_of shp) as [|n]; [by left|].
  right. simpl. f_equal. induction n; [done|]. simpl. done.
Qed.

(** What [load_image] leaves in the counter: one more than the largest
    loaded ID when that is positive, and otherwise the value the counter
    had before the load. *)
Lemma load_image_next_id p W :
  fst (load_image p W) = true ->
  exists m,
    masks (canvas (window (snd (load_image p W)))) = Some m
    /\ next_mask_id (canvas (window (snd (load_image p W))))
       = match np_max m with
         | Some mx => if 0 <? mx then mx + 1 else next_mask_id (canvas (window W))
         | None => next_mask_id (canvas (window W))
         end.
Proof.
  unfold load_image. destruct (imread (disk W) p) as [[h w]|]; [|done]. intros _.
  destruct (path_exists _ _).
  - pose proof (load_existing_masks_next_id (disk W) (_get_mask_path p)
                  (np_zeros [h; w] np_int32)
                  (next_mask_id (canvas (window W))) (np_max_zeros _ _)) as Hn.
    cbn [canvas set_image build_file_list set_file_list next_mask_id].
    destruct (load_existing_masks _ _ _ _) as [m n]. simpl in Hn.
    exists m. by split.
  - eexists. split; [done|]. simpl.
    by destruct (np_max_zeros [h; w] np_int32) as [-> | ->].
Qed.

(** ** The undo stack across a switch of image *)

Lemma load_image_undo_stack p W :
  undo_stack (window (snd (load_image p W))) = undo_stack (window W).
Proof.
  unfold load_image. destruct (imread (disk W) p) as [[h w]|]; [|done].
  destruct (path_exists _ _); [|done].
  by destruct (load_existing_masks _ _ _ _).
Qed.

Lemma save_before_switch_window W : window (save_before_switch W) = window W.
Proof.
  unfold save_before_switch.
  destruct (masks (canvas (window W))); [|done].
  by destruct (image_path (canvas (window W))).
Qed.

(** A drop never touches the undo stack. *)
Lemma dropEvent_keeps_undo_stack urls W :
  undo_stack (window (dropEvent urls W)) = undo_stack (window W).
Proof.
  unfold dropEvent. destruct urls as [|filepath ?]; [done|].
  destruct (_ || _); [|done].
  by rewrite load_image_undo_stack, save_before_switch_window.
Qed.

(** The other three ways of switching clear it once the image is read. *)
Lemma open_image_dialog_clears filepath W :
  filepath <> EmptyString ->
  is_Some (imread (disk (save_before_switch W)) filepath) ->
  undo_stack (window (open_image_dialog filepath W)) = [].
Proof.
  intros Hne [img Himg]. unfold open_image_dialog.
  destruct (String.eqb filepath "") eqn:E; [by apply String.eqb_eq in E|].
  by rewrite Himg.
Qed.

Lemma load_at_index_clears i W next_file :
  tiff_files (window W) !! Z.to_nat i = Some next_file ->
  is_Some (imread (disk (save_before_switch W)) next_file) ->
  undo_stack (window (load_at_index i W)) = [].
Proof.
  intros Hfile [img Himg]. unfold load_at_index.
  cbn [set_index window tiff_files set_file_list disk].
  rewrite save_before_switch_window, Hfile, Himg. done.
Qed.

(** ** Counting instances, and the container round trip *)

Lemma elem_of_insert_unique x z l : x ∈ insert_unique z l <-> x = z \/ x ∈ l.
Proof.
  induction l as [|y t IH]; simpl.
  - set_solver.
  - destruct (z <? y) eqn:E1; [set_solver|].
    destruct (z =? y) eqn:E2.
    + apply Z.eqb_eq in E2. subst. set_solver.
    + set_solver.
Qed.

Lemma elem_of_np_unique x a : x ∈ np_unique a <-> x ∈ data a.
Proof.
  unfold np_unique. induction (data a) as [|y t IH]; simpl; [done|].
  rewrite elem_of_insert_unique, IH. set_solver.
Qed.

Lemma insert_unique_sorted z l :
  StronglySorted Z.lt l -> StronglySorted Z.lt (insert_unique z l).
Proof.
  induction 1 as [|y t Hs IH Hall]; simpl.
  - repeat constructor.
  - destruct (z <? y) eqn:E1.
    + apply Z.ltb_lt in E1. constructor; [by constructor|].
      constructor; [done|]. eapply Forall_impl; [exact Hall|]. simpl. lia.
    + destruct (z =? y) eqn:E2; [by constructor|].
      apply Z.ltb_ge in E1. apply Z.eqb_neq in E2.
      constructor; [done|]. apply Forall_forall. intros x Hx.
      apply elem_of_insert_unique in Hx as [-> | Hx]; [lia|].
      by eapply (proj1 (Forall_forall _ _) Hall).
Qed.

Lemma np_unique_sorted a : StronglySorted Z.lt (np_unique a).
Proof.
  unfold np_unique. induction (data a); simpl; [constructor|].
  by apply insert_unique_sorted.
Qed.

Lemma sorted_NoDup l : StronglySorted Z.lt l -> NoDup l.
Proof.
  induction 1 as [|y t Hs IH Hall]; constructor; [|done].
  intros Hin. pose proof (proj1 (Forall_forall _ _) Hall y Hin). lia.
Qed.

Lemma two_members_length (l : list Z) x y :
  x ∈ l -> y ∈ l -> x <> y -> (2 <= length l)%nat.
Proof.
  destruct l as [|a [|b t]]; simpl; [set_solver|set_solver|lia].
Qed.

Lemma length_filter_nonzero l :
  NoDup l ->
  length (filter (fun v => v <> 0) l)
  = if bool_decide (0 ∈ l) then (length l - 1)%nat else length l.
Proof.
  induction 1 as [|x t Hx Hnd IH]; [done|].
  rewrite filter_cons. destruct (decide (x <> 0)) as [Hnz|Hz].
  - simpl. rewrite IH. case_bool_decide as H0; case_bool_decide as H1; try set_solver.
    destruct t; [set_solver|simpl; lia].
  - assert (x = 0) by lia. subst x. rewrite IH.
    rewrite (bool_decide_eq_false_2 _ Hx), bool_decide_eq_true_2 by set_solver.
    simpl. lia.
Qed.


(** X4. [len(np.unique(a)) - 1], the count that [save_masks],
    [update_status] and [convert_file] use, is the number of distinct
    nonzero values exactly when the array has a zero cell; otherwise it
    is one short. *)
Lemma unique_minus_one a :
  Z.of_nat (length (np_unique a)) - 1
  = if bool_decide (0 ∈ data a) then Z.of_nat (distinct_nonzero a)
    else Z.of_nat (distinct_nonzero a) - 1.
Proof.
  unfold distinct_nonzero.
  rewrite (length_filter_nonzero _ (sorted_NoDup _ (np_unique_sorted a))).
  case_bool_decide as H0; case_bool_decide as H1.
  - destruct (np_unique a); [set_solver|simpl; lia].
  - by apply elem_of_np_unique in H0.
  - by apply elem_of_np_unique in H1.
  - done.
Qed.

Lemma wrap_roundtrip_u16 v : 0 <= v < 65536 -> wrap np_int32 (wrap np_uint16 v) = v.
Proof.
  intros Hv. unfold wrap.
  rewrite (Z.mod_small v) by lia. rewrite Z.mod_small by lia. lia.
Qed.

Lemma astype_roundtrip m :
  dtype_of m = np_int32 ->
  Forall (fun v => 0 <= v < 65536) (data m) ->
  astype np_int32 (astype np_uint16 m) = m.
Proof.
  intros Hd Hall. destruct m as [t shp l]. simpl in *. subst t.
  unfold astype. simpl. f_equal. rewrite map_map.
  induction Hall as [|v l Hv _ IH]; [done|]. cbn [map].
  by rewrite wrap_roundtrip_u16, IH.
Qed.

Lemma cellpose_data_masks o c m p :
  cellpose_data o c m p !! "masks"%string = Some (PyArray (astype np_uint16 m)).
Proof. reflexivity. Qed.

Lemma cellpose_data_complete o c m p :
  is_cellpose_format (ObjScalar (PyDict (cellpose_data o c m p))) = true.
Proof. reflexivity. Qed.

Lemma path_exists_insert (fs : filesystem) p f : path_exists (<[p := f]> fs) p = true.
Proof. unfold path_exists. apply bool_decide_eq_true. rewrite lookup_insert_eq. by eexists. Qed.

(** X3. Saving a raster in which [len(np.unique(masks)) - 1] is positive
    and loading the image again gives the raster back, provided every cell
    fits the unsigned 16 bits of the container. *)
Lemma load_after_save_roundtrip W p m (h w : nat) :
  image_path (canvas (window W)) = Some p ->
  masks (canvas (window W)) = Some m ->
  disk W !! p = Some (FImage h w) ->
  dtype_of m = np_int32 ->
  shape m = [h; w] ->
  Forall (fun v => 0 <= v < 65536) (data m) ->
  (2 <= length (np_unique m))%nat ->
  is_Some (generate_outlines m) ->
  masks (canvas (window (snd (load_image p
    {| window := window W;
       disk := snd (save_masks (canvas (window W)) (disk W)) |}))))
  = Some m.
Proof.
  intros Hp Hm Himg Hd Hs Hcells Hlen [o Ho].
  unfold save_masks. rewrite Hp, Hm, Ho.
  destruct (0 <? _) eqn:E; [|apply Z.ltb_ge in E; lia]. cbn [snd].
  unfold load_image. cbn [disk window].
  unfold imread. rewrite lookup_insert_ne by apply mask_path_differs.
  rewrite Himg, path_exists_insert.
  unfold load_existing_masks, np_load. rewrite lookup_insert_eq.
  cbn [masks_candidate]. rewrite cellpose_data_masks.
  assert (Hnd : (2 <=? ndim (astype np_uint16 m))%nat = true)
    by (unfold ndim, astype; simpl; by rewrite Hs).
  rewrite Hnd.
  assert (Hsh : shape2 (astype np_uint16 m) = shape (np_zeros [h; w] np_int32))
    by (unfold shape2, astype; simpl; by rewrite Hs).
  rewrite (bool_decide_eq_true_2 _ Hsh), (astype_roundtrip m Hd Hcells).
  destruct (np_max m) as [mx|]; [by destruct (0 <? mx)|done].
Qed.

(** A raster with a background cell and an instance cell satisfies the
    counting premise of the round trip. *)
Lemma background_and_instance_counted m v :
  0 ∈ data m -> v ∈ data m -> v <> 0 -> (2 <= length (np_unique m))%nat.
Proof.
  intros H0 Hv Hne. apply (two_members_length _ 0 v); [| |done];
    by apply elem_of_np_unique.
Qed.

(** ** Migration *)

(** A file reported as lacking its TIFF is never written, whatever the
    flags. *)
Lemma convert_no_tif_writes_nothing mask_path dry_run backup (fs : filesystem) :
  fst (convert_file mask_path dry_run backup fs) = no_tif ->
  snd (convert_file mask_path dry_run backup fs) = fs.
Proof.
  unfold convert_file.
  destruct (np_load fs mask_path) as [data|]; [|done].
  destruct (is_cellpose_format data); [done|].
  assert (Hcc : forall a tif u,
    fst (count_and_convert fs mask_path dry_run backup a tif u) <> no_tif).
  { intros a tif u. unfold count_and_convert.
    destruct dry_run; [done|]. by destruct (convert_to_cellpose_format a tif). }
  destruct data as [a | o].
  - destruct (2 <=? ndim a)%nat; [|done].
    destruct (get_corresponding_tif fs mask_path); [|done].
    intros H. by apply Hcc in H.
  - destruct o; try done.
    destruct (d !! "masks"%string) as [ma|]; [|done].
    destruct (get_corresponding_tif fs mask_path); [|done].
    assert (Hcf : forall x,
      fst (count_and_fail fs mask_path dry_run backup x) <> no_tif).
    { intros x. unfold count_and_fail.
      destruct (len_unique x); [|done]. by destruct dry_run. }
    destruct ma; intros H; first [by apply Hcc in H | by apply Hcf in H].
Qed.


(** X20. Without a sibling TIFF a partial dictionary or a simple array
    is reported as such and the disk is left as it is, also when
    [dry_run] is off. *)
Lemma convert_without_tif mask_path dry_run backup (fs : filesystem) data :
  np_load fs mask_path = Some data ->
  partial_or_simple data ->
  get_corresponding_tif fs mask_path = None ->
  convert_file mask_path dry_run backup fs = (no_tif, fs).
Proof.
  intros Hload Hshape Htif. unfold convert_file. rewrite Hload.
  destruct data as [a | o].
  - cbn [is_cellpose_format]. unfold partial_or_simple in Hshape.
    destruct (2 <=? ndim a)%nat eqn:E; [|apply Nat.leb_gt in E; lia].
    by rewrite Htif.
  - destruct o; try done. destruct Hshape as [[ma Hma] Hnot].
    by rewrite Hnot, Hma, Htif.
Qed.

(** With its TIFF and [dry_run] off, a simple array is overwritten by a
    complete dictionary, and the number reported is
    [len(np.unique(data)) - 1]. *)
Lemma convert_simple_with_tif mask_path backup (fs : filesystem) a tif :
  np_load fs mask_path = Some (NumArray a) ->
  (2 <= ndim a)%nat ->
  get_corresponding_tif fs mask_path = Some tif ->
  is_Some (generate_outlines a) ->
  fst (convert_file mask_path false backup fs)
    = converted (Z.of_nat (length (np_unique a)) - 1) false
  /\ exists c, np_load (snd (convert_file mask_path false backup fs)) mask_path = Some c
              /\ is_cellpose_format c = true.
Proof.
  intros Hload Hnd Htif [o Ho]. unfold convert_file. rewrite Hload.
  cbn [is_cellpose_format].
  destruct (2 <=? ndim a)%nat eqn:E; [|apply Nat.leb_gt in E; lia].
  rewrite Htif. unfold count_and_convert, convert_to_cellpose_format.
  rewrite Ho. cbn [mbind option_bind fst snd]. split; [done|].
  eexists. split.
  - unfold np_load. by rewrite lookup_insert_eq.
  - apply cellpose_data_complete.
Qed.

End Properties.

(* ===================================================================== *)
(** * The properties on the sample sessions *)
(* ===================================================================== *)

Section Session_properties.
#[local] Existing Instance Reference.cv.
#[local] Existing Instance Reference.numpy.
Import Sessions.

(** C1 (code bug). A paint pushes its snapshot after it has written the
    raster: on blank image a, drawing a box and undoing at once leaves the
    box in the raster instead of restoring the blank raster. *)
Theorem undo_after_paint_restores_nothing :
  masks (canvas (window on_a)) = Some (blank 4 6)
  /\ masks (canvas (window painted_a)) = Some square_on_blank
  /\ undo_stack (window painted_a) = [square_on_blank]
  /\ masks (canvas (window (undo painted_a))) = Some square_on_blank.
Proof. vm_compute. repeat split. Qed.

(** C3 (code bug). A raster whose only ID covers the whole frame has one
    unique value, so [save_masks] counts no mask and writes no container:
    loading the image again gives a blank raster. *)
Theorem full_frame_instance_lost_on_save :
  masks (canvas (window painted_d)) = Some full_frame
  /\ fst (save_masks (canvas (window painted_d)) (disk painted_d)) = NothingToSave
  /\ snd (save_masks (canvas (window painted_d)) (disk painted_d))
       !! _get_mask_path "/data/d.tif" = None
  /\ masks (canvas (window (snd (load_image "/data/d.tif"
        {| window := window painted_d;
           disk := snd (save_masks (canvas (window painted_d)) (disk painted_d)) |}))))
     = Some (blank 4 4).
Proof. vm_compute. repeat split. Qed.

(** C4 (code bug). [load_image] leaves the counter as it was when the
    loaded raster has no positive ID: after image b (largest ID 7), image
    a loads blank with the counter still at 8. *)
Theorem next_id_kept_across_switch :
  next_mask_id (canvas (window on_b)) = 8
  /\ masks (canvas (window (open_image_dialog "/data/a.tif" on_b))) = Some (blank 4 6)
  /\ next_mask_id (canvas (window (open_image_dialog "/data/a.tif" on_b))) = 8.
Proof. vm_compute. repeat split. Qed.

(** C5 (code bug). A box drawn inside instance 7 of image b survives
    nowhere: the paint reports a complete overlap, and the raster, the
    next ID and the undo stack are as before the gesture. The gesture
    saves all the same: the container of b, a simple array before, is a
    complete dictionary after, so the disk is not what it was. *)
Theorem overlapped_paint_still_saves :
  _create_mask_from_polygon (window dragging_inside_7)
    = (CompletelyOverlapped, window dragging_inside_7)
  /\ masks (canvas (window drawn_inside_7)) = masks (canvas (window dragging_inside_7))
  /\ next_mask_id (canvas (window drawn_inside_7))
     = next_mask_id (canvas (window dragging_inside_7))
  /\ undo_stack (window drawn_inside_7) = undo_stack (window dragging_inside_7)
  /\ np_load (disk dragging_inside_7) "/data/b_seg.npy" = Some (NumArray block7)
  /\ is_cellpose_format <$> np_load (disk drawn_inside_7) "/data/b_seg.npy" = Some true
  /\ disk drawn_inside_7 <> disk dragging_inside_7.
Proof.
  do 6 (split; [vm_compute; reflexivity|]).
  intros H.
  apply (f_equal (fun fs : filesystem =>
                    is_cellpose_format <$> np_load fs "/data/b_seg.npy")) in H.
  vm_compute in H. discriminate.
Qed.

(** C7 (code bug). [dropEvent] switches the image without clearing the
    undo stack: after image a is dropped, the stack still holds the
    raster of image b, and undo installs it on image a. *)
Theorem drop_keeps_undo_stack :
  image_path (canvas (window dropped_a)) = Some "/data/a.tif"
  /\ undo_stack (window dropped_a) = [block7_loaded]
  /\ masks (canvas (window (undo dropped_a))) = Some block7_loaded.
Proof. vm_compute. repeat split. Qed.

(** C9 (code bug). For a simple array without a background pixel,
    [convert_file] reports one mask fewer than the array has distinct
    nonzero IDs. *)
Theorem convert_miscounts_without_background :
  get_corresponding_tif disk0 "/data/c_seg.npy" = Some "/data/c.tif"
  /\ fst (convert_file "/data/c_seg.npy" false false disk0) = converted 1 false
  /\ distinct_nonzero no_background = 2%nat.
Proof. vm_compute. repeat split. Qed.

(** The container of an image whose stem contains "_seg" is paired with
    no TIFF, because every occurrence is removed from the stem. *)
Example tif_lookup_strips_every_seg :
  _get_mask_path "/data/e_seg.tif" = "/data/e_seg_seg.npy"
  /\ get_corresponding_tif disk0 "/data/e_seg_seg.npy" = None
  /\ fst (convert_file "/data/e_seg_seg.npy" false false disk0) = no_tif.
Proof. vm_compute. repeat split. Qed.

(** A box that overlaps instance 7 is painted behind it, with the next
    ID, and the container is written in the complete shape. *)
Example paint_behind_example :
  masks (canvas (window painted_b)) = Some square_behind_7
  /\ next_mask_id (canvas (window painted_b)) = 9
  /\ is_cellpose_format <$> np_load (disk painted_b) "/data/b_seg.npy" = Some true.
Proof. vm_compute. repeat split. Qed.

(** After an erase, undo restores the raster and the container. *)
Example undo_after_erase_example :
  masks (canvas (window erased_b)) = Some (blank 4 6)
  /\ disk erased_b !! "/data/b_seg.npy" = None
  /\ masks (canvas (window (undo erased_b))) = Some block7_loaded
  /\ is_cellpose_format <$> np_load (disk (undo erased_b)) "/data/b_seg.npy" = Some true.
Proof. vm_compute. repeat split. Qed.

(** ** Witnesses *)

Lemma paint_keeps_existing_instances_witness :
  masks (canvas (window dragging_on_b)) = Some block7_loaded
  /\ exists m',
    masks (canvas (snd (_create_mask_from_polygon (window dragging_on_b)))) = Some m'
    /\ shape m' = shape block7_loaded
    /\ length (data m') = length (data block7_loaded)
    /\ (forall i v, data block7_loaded !! i = Some v -> 0 < v -> data m' !! i = Some v)
    /\ (forall i v v', data block7_loaded !! i = Some v -> data m' !! i = Some v' ->
          v' <> v -> v <= 0 /\ v' = next_mask_id (canvas (window dragging_on_b)))
    /\ (Forall (fun v => 0 <= v) (data block7_loaded) ->
        (forall i v, data block7_loaded !! i = Some v -> v <> 0 -> data m' !! i = Some v)
        /\ (forall i v v', data block7_loaded !! i = Some v -> data m' !! i = Some v' ->
              v' <> v -> v = 0)).
Proof.
  split; [vm_compute; reflexivity|].
  apply (paint_keeps_existing_instances (window dragging_on_b) block7_loaded).
  vm_compute; reflexivity.
Defined.

Lemma overlapped_paint_changes_nothing_then_saves_witness :
  _create_mask_from_polygon (window dragging_inside_7)
    = (CompletelyOverlapped, window dragging_inside_7)
  /\ fst (mouseReleaseEvent (pointer 0 3 false) dragging_inside_7) = None
  /\ masks (canvas (window (snd (mouseReleaseEvent (pointer 0 3 false) dragging_inside_7))))
     = Some block7_loaded
  /\ next_mask_id (canvas (window (snd (mouseReleaseEvent (pointer 0 3 false) dragging_inside_7))))
     = next_mask_id (canvas (window dragging_inside_7))
  /\ undo_stack (window (snd (mouseReleaseEvent (pointer 0 3 false) dragging_inside_7)))
     = undo_stack (window dragging_inside_7)
  /\ disk (snd (mouseReleaseEvent (pointer 0 3 false) dragging_inside_7))
     = snd (save_masks (canvas (window dragging_inside_7)) (disk dragging_inside_7)).
Proof.
  apply (overlapped_paint_changes_nothing_then_saves
           (pointer 0 3 false) dragging_inside_7 block7_loaded 4 6).
  - vm_compute. eexists. reflexivity.
  - vm_compute; reflexivity.
  - vm_compute; reflexivity.
  - vm_compute; reflexivity.
  - vm_compute; reflexivity.
  - vm_compute; reflexivity.
  - vm_compute; reflexivity.
  - vm_compute. lia.
  - vm_compute; reflexivity.
  - intros x y Hx Hy.
    assert (Hxs : In x [0; 1; 2; 3; 4; 5]%nat) by (simpl; lia).
    assert (Hys : In y [0; 1; 2; 3]%nat) by (simpl; lia).
    simpl in Hxs, Hys. clear Hx Hy.
    repeat (destruct Hxs as [<- | Hxs]); try contradiction;
      repeat (destruct Hys as [<- | Hys]); try contradiction;
      vm_compute; intros Hc; try discriminate;
      eexists; (split; [reflexivity|reflexivity]).
Defined.

Lemma delete_at_pixel_witness :
  exists v, getitem2 block7_loaded 1 1 = Some v /\
    (0 < v ->
       exists m', fst (_delete_mask_at 1 1 on_b) = Deleted v
         /\ masks (canvas (window (snd (_delete_mask_at 1 1 on_b)))) = Some m'
         /\ shape m' = shape block7_loaded
         /\ length (data m') = length (data block7_loaded)
         /\ forall i u, data block7_loaded !! i = Some u ->
               data m' !! i = Some (if u =? v then 0 else u)) /\
    (v = 0 -> _delete_mask_at 1 1 on_b = (NoMaskHere, on_b)) /\
    (Forall (fun u => 0 <= u) (data block7_loaded) -> 0 < v \/ v = 0).
Proof.
  apply (delete_at_pixel 1 1 on_b block7_loaded 4 6).
  - vm_compute; reflexivity.
  - reflexivity.
  - reflexivity.
  - simpl; lia.
  - simpl; lia.
Defined.

Lemma delete_out_of_bounds_is_noop_witness :
  _delete_mask_at 6 (-1) on_b = (OutOfBounds, on_b).
Proof.
  apply (delete_out_of_bounds_is_noop 6 (-1) on_b block7_loaded 4 6).
  - vm_compute; reflexivity.
  - reflexivity.
  - simpl; lia.
Defined.


End Session_properties.

(* ===================================================================== *)
(** * Further properties of the engine, the sessions and the batch *)
(* ===================================================================== *)

Section More_properties.
Context `{cv : OpenCV} `{numpy : NumPy}.

(** ** The undo stack and the codec *)

(** X1. Pushing a snapshot keeps the most recent fifty: below the cap the
    raster is appended, at the cap the oldest snapshot is dropped first,
    and the stack never exceeds the cap. *)
Theorem push_keeps_latest_fifty w m :
  masks (canvas w) = Some m ->
  (length (undo_stack w) <= max_undo_steps)%nat ->
  ((length (undo_stack w) < max_undo_steps)%nat ->
     undo_stack (add_to_undo_stack w) = undo_stack w ++ [m])
  /\ (length (undo_stack w) = max_undo_steps ->
     undo_stack (add_to_undo_stack w) = tail (undo_stack w) ++ [m])
  /\ (length (undo_stack (add_to_undo_stack w)) <= max_undo_steps)%nat.
Proof.
  intros Hm Hlen. split; [|split].
  - intros Hlt. unfold add_to_undo_stack. rewrite Hm.
    destruct (_ <? _)%nat eqn:E; [|done].
    apply Nat.ltb_lt in E. rewrite length_app in E. simpl in E. lia.
  - intros Heq. unfold add_to_undo_stack. rewrite Hm.
    destruct (_ <? _)%nat eqn:E.
    + simpl. destruct (undo_stack w); [simpl in Heq; unfold max_undo_steps in Heq; lia|done].
    + apply Nat.ltb_ge in E. rewrite length_app in E. simpl in E. lia.
  - by apply add_to_undo_stack_bounded.
Qed.

(** X5. When [len(np.unique(masks)) - 1] is positive and OpenCV accepts
    the raster, [save_masks] reports that count and writes, at the
    container path, a dictionary of the complete shape whose masks are the
    raster cast to uint16, with the outlines, the colours and the image
    path as file name; no other path changes. *)
Theorem save_writes_complete_container c (fs : filesystem) p m o :
  image_path c = Some p ->
  masks c = Some m ->
  (2 <= length (np_unique m))%nat ->
  generate_outlines m = Some o ->
  fst (save_masks c fs) = Saved (Z.of_nat (length (np_unique m)) - 1)
  /\ (exists d,
        np_load (snd (save_masks c fs)) (_get_mask_path p) = Some (ObjScalar (PyDict d))
        /\ is_cellpose_format (ObjScalar (PyDict d)) = true
        /\ d !! "masks"%string = Some (PyArray (astype np_uint16 m))
        /\ d !! "outlines"%string = Some (PyArray o)
        /\ d !! "colors"%string = Some (PyArray (generate_colors m))
        /\ d !! "filename"%string = Some (PyStr p))
  /\ (forall q, q <> _get_mask_path p -> snd (save_masks c fs) !! q = fs !! q).
Proof.
  intros Hp Hm Hlen Ho. unfold save_masks. rewrite Hp, Hm, Ho.
  destruct (0 <? _) eqn:E; [|apply Z.ltb_ge in E; lia]. cbn [fst snd].
  split; [done|]. split.
  - eexists. unfold np_load. rewrite lookup_insert_eq. split; [done|].
    repeat split.
  - intros q Hq. by rewrite lookup_insert_ne.
Qed.

Lemma save_masks_frame c (fs : filesystem) p q :
  image_path c = Some p -> q <> _get_mask_path p ->
  snd (save_masks c fs) !! q = fs !! q.
Proof.
  intros Hp Hq. unfold save_masks. rewrite Hp.
  destruct (masks c) as [m|]; [|done].
  destruct (0 <? _).
  - destruct (generate_outlines m); [|done]. simpl. by rewrite lookup_insert_ne.
  - destruct (path_exists _ _); [|done]. simpl. by rewrite lookup_delete_ne.
Qed.

(** X6. [save_masks] changes at most the container path of the open
    image: every other path keeps its content, and the image file itself
    is never written and stays readable. *)
Theorem save_changes_only_the_container c (fs : filesystem) p :
  image_path c = Some p ->
  snd (save_masks c fs) !! p = fs !! p
  /\ (forall q, q <> _get_mask_path p -> snd (save_masks c fs) !! q = fs !! q)
  /\ (forall h w, imread fs p = Some (h, w) ->
        imread (snd (save_masks c fs)) p = Some (h, w)).
Proof.
  intros Hp.
  assert (Himg : snd (save_masks c fs) !! p = fs !! p).
  { apply (save_masks_frame c fs p p Hp). intros H. symmetry in H.
    by apply mask_path_differs in H. }
  split; [done|]. split.
  - intros q. by apply save_masks_frame.
  - intros h w. unfold imread. by rewrite Himg.
Qed.

Lemma save_masks_else_branch (fs : filesystem) mp :
  snd (if path_exists fs mp then (DeletedEmpty, delete mp fs) else (NothingToSave, fs))
  = delete mp fs.
Proof.
  destruct (path_exists fs mp) eqn:E; [done|]. simpl.
  symmetry. apply delete_id. by apply path_exists_false.
Qed.

(** Off its container path, [save_masks] neither reads nor writes. *)
Lemma save_masks_off_path c (fs1 fs2 : filesystem) p m :
  image_path c = Some p -> masks c = Some m ->
  (0 < Z.of_nat (length (np_unique m)) - 1 -> is_Some (generate_outlines m)) ->
  delete (_get_mask_path p) fs1 = delete (_get_mask_path p) fs2 ->
  snd (save_masks c fs1) = snd (save_masks c fs2).
Proof.
  intros Hp Hm Hok Hoff. unfold save_masks. rewrite Hp, Hm.
  destruct (0 <? _) eqn:E.
  - apply Z.ltb_lt in E. destruct (Hok E) as [o ->]. cbn [snd].
    rewrite <- (insert_delete_eq fs1), <- (insert_delete_eq fs2). by rewrite Hoff.
  - by rewrite !save_masks_else_branch.
Qed.

Lemma save_masks_delete c (fs : filesystem) p :
  image_path c = Some p ->
  delete (_get_mask_path p) (snd (save_masks c fs)) = delete (_get_mask_path p) fs.
Proof.
  intros Hp. unfold save_masks. rewrite Hp.
  destruct (masks c) as [m|]; [|done].
  destruct (0 <? _).
  - destruct (generate_outlines m); [|done]. cbn [snd]. apply delete_insert_eq.
  - rewrite save_masks_else_branch. apply delete_delete_eq.
Qed.

(** X7. The container reflects the last save only: saving a raster after
    any earlier save for the same image leaves the disk as if the earlier
    save had not happened, provided the later save does not fail. *)
Theorem last_save_wins c c' (fs : filesystem) p m :
  image_path c = Some p ->
  image_path c' = Some p ->
  masks c = Some m ->
  fst (save_masks c fs) <> SaveFailed ->
  snd (save_masks c (snd (save_masks c' fs))) = snd (save_masks c fs).
Proof.
  intros Hp Hp' Hm Hok.
  apply (save_masks_off_path c _ _ p m Hp Hm).
  - intros Hpos. unfold save_masks in Hok. rewrite Hp, Hm in Hok.
    destruct (0 <? _) eqn:E; [|apply Z.ltb_ge in E; lia].
    destruct (generate_outlines m); [by eexists|done].
  - by apply save_masks_delete.
Qed.

(** ** Loading *)


Lemma load_image_unfold p W h w :
  imread (disk W) p = Some (h, w) ->
  load_image p W =
    (true,
     {| window :=
          set_canvas
            (set_is_drawing false (set_current_polygon []
               (set_next_mask_id
                  (snd (loaded_pair (disk W) p h w (next_mask_id (canvas (window W)))))
                  (set_masks
                     (Some (fst (loaded_pair (disk W) p h w
                                   (next_mask_id (canvas (window W))))))
                     (set_image (h, w) p (canvas (window W)))))))
            (build_file_list (disk W) p (window W));
        disk := disk W |}).
Proof.
  intros Himg. unfold load_image, loaded_pair. rewrite Himg.
  cbn [canvas build_file_list set_file_list set_image next_mask_id].
  by destruct (if path_exists _ _ then _ else _).
Qed.

Lemma path_exists_true (fs : filesystem) p :
  path_exists fs p = true <-> is_Some (fs !! p).
Proof. unfold path_exists. apply bool_decide_eq_true. Qed.

Lemma np_load_exists (fs : filesystem) p c : np_load fs p = Some c -> path_exists fs p = true.
Proof.
  unfold np_load. intros H. apply path_exists_true.
  destruct (fs !! p); [by eexists|done].
Qed.

(** Whatever the container holds, the raster installed is blank or the
    container's array converted to int32, and it has the dimensions of
    the image. *)
Lemma loaded_pair_shape (fs : filesystem) p h w n :
  shape2 (fst (loaded_pair fs p h w n)) = [h; w]
  /\ dtype_of (fst (loaded_pair fs p h w n)) = np_int32.
Proof.
  unfold loaded_pair. destruct (path_exists _ _); [|done].
  unfold load_existing_masks.
  destruct (np_load _ _) as [loaded|]; [|done].
  destruct (masks_candidate loaded) as [a|]; [|done].
  destruct (2 <=? ndim a)%nat; [|done].
  case_bool_decide as Hs; [|done].
  destruct (np_max _) as [mx|]; [destruct (0 <? mx)|]; done.
Qed.

(** X8. A successful [load_image] returns True, records the image and
    its path, installs an int32 raster with the leading dimensions of the
    image, clears the polygon being drawn, and leaves the undo stack and
    the disk as they are. *)
Theorem load_image_sets_up_canvas p W h w :
  imread (disk W) p = Some (h, w) ->
  fst (load_image p W) = true
  /\ image (canvas (window (snd (load_image p W)))) = Some (h, w)
  /\ image_path (canvas (window (snd (load_image p W)))) = Some p
  /\ (exists m, masks (canvas (window (snd (load_image p W)))) = Some m
                /\ shape2 m = [h; w] /\ dtype_of m = np_int32)
  /\ current_polygon (canvas (window (snd (load_image p W)))) = []
  /\ is_drawing (canvas (window (snd (load_image p W)))) = false
  /\ undo_stack (window (snd (load_image p W))) = undo_stack (window W)
  /\ disk (snd (load_image p W)) = disk W.
Proof.
  intros Himg. rewrite (load_image_unfold p W h w Himg). cbn.
  repeat split; try done.
  eexists. split; [done|]. apply loaded_pair_shape.
Qed.

(** X9. When the container is missing or unreadable, holds no array, or
    holds an array of rank below 2 or of other dimensions than the image,
    [load_image] installs the blank raster and keeps the counter. *)
Theorem load_image_falls_back_to_blank p W h w :
  imread (disk W) p = Some (h, w) ->
  (np_load (disk W) (_get_mask_path p) = None
   \/ (exists loaded, np_load (disk W) (_get_mask_path p) = Some loaded
         /\ masks_candidate loaded = None)
   \/ (exists loaded a, np_load (disk W) (_get_mask_path p) = Some loaded
         /\ masks_candidate loaded = Some a
         /\ ((ndim a < 2)%nat \/ shape2 a <> [h; w]))) ->
  masks (canvas (window (snd (load_image p W)))) = Some (np_zeros [h; w] np_int32)
  /\ next_mask_id (canvas (window (snd (load_image p W))))
     = next_mask_id (canvas (window W)).
Proof.
  intros Himg Hbad. rewrite (load_image_unfold p W h w Himg). cbn.
  assert (Hpair : loaded_pair (disk W) p h w (next_mask_id (canvas (window W)))
                  = (np_zeros [h; w] np_int32, next_mask_id (canvas (window W)))).
  { unfold loaded_pair. destruct (path_exists _ _); [|done].
    unfold load_existing_masks.
    destruct Hbad as [-> | [(loaded & -> & ->) | (loaded & a & -> & -> & Hbad)]];
      [done|done|].
    destruct (2 <=? ndim a)%nat eqn:E.
    - apply Nat.leb_le in E. destruct Hbad as [?|Hs]; [lia|].
      by rewrite bool_decide_eq_false_2.
    - done. }
  by rewrite Hpair.
Qed.

Lemma np_max_bound a mx :
  np_max a = Some mx -> Forall (fun v => v <= mx) (data a).
Proof.
  unfold np_max. destruct (data a) as [|x t]; [done|]. intros [= <-].
  assert (Hgen : forall l acc, acc <= fold_left Z.max l acc
                 /\ Forall (fun v => v <= fold_left Z.max l acc) l).
  { induction l as [|y l IH]; intros acc; simpl; [split; [lia|constructor]|].
    destruct (IH (Z.max acc y)) as [H1 H2]. split; [lia|].
    constructor; [lia|done]. }
  destruct (Hgen t x). by constructor.
Qed.

(** X10. A container whose array (bare, or under the key masks of a
    dictionary) has rank 2 or more and the dimensions of the image is
    adopted, cast to int32; when its largest ID is positive the counter
    becomes that ID plus one, above every cell. *)
Theorem load_image_adopts_container p W h w loaded a :
  imread (disk W) p = Some (h, w) ->
  np_load (disk W) (_get_mask_path p) = Some loaded ->
  masks_candidate loaded = Some a ->
  (2 <= ndim a)%nat ->
  shape2 a = [h; w] ->
  masks (canvas (window (snd (load_image p W)))) = Some (astype np_int32 a)
  /\ (forall mx, np_max (astype np_int32 a) = Some mx -> 0 < mx ->
        next_mask_id (canvas (window (snd (load_image p W)))) = mx + 1
        /\ Forall (fun v => v < mx + 1) (data (astype np_int32 a))).
Proof.
  intros Himg Hload Hcand Hnd Hs. rewrite (load_image_unfold p W h w Himg). cbn.
  unfold loaded_pair. rewrite (np_load_exists _ _ _ Hload).
  unfold load_existing_masks. rewrite Hload, Hcand.
  destruct (2 <=? ndim a)%nat eqn:E; [|apply Nat.leb_gt in E; lia].
  rewrite bool_decide_eq_true_2 by done.
  split.
  - destruct (np_max _) as [mx|]; [by destruct (0 <? mx)|done].
  - intros mx Hmx Hpos. rewrite Hmx.
    destruct (0 <? mx) eqn:E'; [|lia]. split; [done|].
    eapply Forall_impl; [apply (np_max_bound _ _ Hmx)|]. simpl. lia.
Qed.

(** ** The file list *)

Lemma elem_of_insert_sorted x y l : x ∈ insert_sorted y l <-> x = y \/ x ∈ l.
Proof.
  induction l as [|z t IH]; simpl; [set_solver|].
  destruct (String.leb y z); set_solver.
Qed.

Lemma elem_of_sorted x l : x ∈ sorted l <-> x ∈ l.
Proof.
  unfold sorted. induction l as [|y t IH]; simpl; [done|].
  rewrite elem_of_insert_sorted, IH. set_solver.
Qed.

Lemma list_index_Some x l i : list_index x l = Some i -> l !! i = Some x.
Proof.
  revert i. induction l as [|y t IH]; intros i; simpl; [done|].
  destruct (String.eqb x y) eqn:E.
  - apply String.eqb_eq in E. by intros [= <-]; subst.
  - destruct (list_index x t) as [j|]; [|done]. simpl. intros [= <-]. by apply IH.
Qed.

Lemma list_index_None x l : list_index x l = None -> x ∉ l.
Proof.
  induction l as [|y t IH]; simpl; [set_solver|].
  destruct (String.eqb x y) eqn:E; [done|].
  apply String.eqb_neq in E.
  destruct (list_index x t); [done|]. intros _. set_solver.
Qed.

Lemma elem_of_keys (fs : filesystem) p : p ∈ map fst (map_to_list fs) <-> is_Some (fs !! p).
Proof.
  rewrite list_elem_of_In, in_map_iff. split.
  - intros ([q f] & <- & Hin). apply list_elem_of_In, elem_of_map_to_list in Hin.
    simpl. by eexists.
  - intros [f Hf]. exists (p, f). split; [done|].
    by apply list_elem_of_In, elem_of_map_to_list.
Qed.

Lemma elem_of_glob_ext (fs : filesystem) dir ext p :
  p ∈ glob_ext fs dir ext
  <-> is_Some (fs !! p) /\ path_dir p = dir /\ endswith (path_name p) ext = true.
Proof.
  unfold glob_ext. rewrite list_elem_of_filter, elem_of_keys. tauto.
Qed.


Lemma elem_of_file_list (fs : filesystem) dir q :
  q ∈ sorted (concat (map (glob_ext fs dir) tiff_extensions))
  <-> is_Some (fs !! q) /\ path_dir q = dir /\ has_tiff_extension q.
Proof.
  rewrite elem_of_sorted, list_elem_of_In, in_concat. split.
  - intros (l & Hl & Hq). apply in_map_iff in Hl as (ext & <- & Hext).
    apply list_elem_of_In, elem_of_glob_ext in Hq as (? & ? & ?).
    repeat split; try done. exists ext. split; [by apply list_elem_of_In|done].
  - intros (Hq & Hd & ext & Hext & Hend).
    exists (glob_ext fs dir ext). split.
    + apply in_map_iff. exists ext. split; [done|by apply list_elem_of_In].
    + apply list_elem_of_In, elem_of_glob_ext. done.
Qed.

(** X11. After a load the file list holds exactly the files of the
    image's directory that carry one of the four TIFF extensions; the
    current index points at the loaded file when it carries one of them,
    and is -1 otherwise. *)
Theorem load_image_indexes_current_file p W h w :
  imread (disk W) p = Some (h, w) ->
  (forall q, q ∈ tiff_files (window (snd (load_image p W)))
     <-> is_Some (disk W !! q) /\ path_dir q = path_dir p /\ has_tiff_extension q)
  /\ (has_tiff_extension p ->
        0 <= current_file_index (window (snd (load_image p W)))
        /\ tiff_files (window (snd (load_image p W)))
             !! Z.to_nat (current_file_index (window (snd (load_image p W))))
           = Some p)
  /\ (~ has_tiff_extension p ->
        current_file_index (window (snd (load_image p W))) = -1).
Proof.
  intros Himg. rewrite (load_image_unfold p W h w Himg).
  cbn [snd window set_canvas tiff_files current_file_index build_file_list set_file_list].
  assert (Hp : is_Some (disk W !! p)).
  { unfold imread in Himg. destruct (disk W !! p); [by eexists|done]. }
  split; [intros q; apply elem_of_file_list|]. split.
  - intros Hext.
    destruct (list_index p _) as [i|] eqn:Hi.
    + split; [lia|]. rewrite Nat2Z.id. by apply list_index_Some.
    + apply list_index_None in Hi. destruct Hi. by apply elem_of_file_list.
  - intros Hext.
    destruct (list_index p _) as [i|] eqn:Hi; [|done].
    apply list_index_Some, list_elem_of_lookup_2, elem_of_file_list in Hi.
    tauto.
Qed.

(** X12. On a well-formed 2-D raster [_delete_mask_at] never raises,
    whatever the coordinates: it reports them out of bounds, or finds no
    mask, or deletes the positive ID it read. *)
Theorem delete_never_raises x y W m (h w : nat) :
  masks (canvas (window W)) = Some m ->
  shape m = [h; w] ->
  well_formed m ->
  fst (_delete_mask_at x y W) = OutOfBounds
  \/ fst (_delete_mask_at x y W) = NoMaskHere
  \/ exists v, 0 < v /\ fst (_delete_mask_at x y W) = Deleted v.
Proof.
  intros Hm Hs Hwf. unfold _delete_mask_at. rewrite Hm, Hs.
  destruct (_ && _) eqn:E; [|by left].
  apply in_bounds_test in E as [Hx Hy].
  destruct (getitem2_in_bounds m h w x y Hs Hwf Hx Hy) as (v & -> & _).
  destruct (0 <? v) eqn:Ev; [|by right; left].
  right; right. exists v. split; [lia|done].
Qed.

Lemma save_all_zero c (fs : filesystem) p m :
  image_path c = Some p -> masks c = Some m ->
  Forall (fun v => v = 0) (data m) ->
  snd (save_masks c fs) = delete (_get_mask_path p) fs.
Proof.
  intros Hp Hm Hz. unfold save_masks. rewrite Hp, Hm.
  destruct (np_unique_all_zero m Hz) as [-> | ->]; simpl;
    (destruct (path_exists _ _) eqn:E; [done|]; simpl;
     symmetry; apply delete_id; by apply path_exists_false).
Qed.

(** X13. Erasing the only instance of a raster leaves a blank raster
    and removes the container of the image from the disk. *)
Theorem erase_last_instance_removes_container x y W m p (h w : nat) v :
  masks (canvas (window W)) = Some m ->
  image_path (canvas (window W)) = Some p ->
  shape m = [h; w] ->
  0 <= x < Z.of_nat w ->
  0 <= y < Z.of_nat h ->
  getitem2 m y x = Some v ->
  0 < v ->
  Forall (fun u => u = 0 \/ u = v) (data m) ->
  fst (_delete_mask_at x y W) = Deleted v
  /\ (exists m', masks (canvas (window (snd (_delete_mask_at x y W)))) = Some m'
                 /\ Forall (fun u => u = 0) (data m'))
  /\ disk (snd (_delete_mask_at x y W)) = delete (_get_mask_path p) (disk W)
  /\ disk (snd (_delete_mask_at x y W)) !! _get_mask_path p = None.
Proof.
  intros Hm Hp Hs Hx Hy Hget Hv Hall.
  assert (Hin : ((0 <=? x) && (x <? Z.of_nat w) && (0 <=? y) && (y <? Z.of_nat h)) = true)
    by (apply in_bounds_test; lia).
  assert (Hz : Forall (fun u => u = 0) (data (clear_equal m v))).
  { unfold clear_equal. simpl. apply Forall_map.
    eapply Forall_impl; [exact Hall|]. simpl. intros u [-> | ->].
    - by destruct (0 =? v).
    - by rewrite Z.eqb_refl. }
  unfold _delete_mask_at. rewrite Hm, Hs, Hin, Hget.
  destruct (0 <? v) eqn:E; [|lia]. cbn [fst snd window disk canvas set_canvas].
  split; [done|]. split; [by eexists|].
  rewrite (save_all_zero _ (disk W) p (clear_equal m v)); try done.
  - split; [done|]. apply lookup_delete_eq.
  - cbn. by rewrite add_to_undo_stack_canvas.
Qed.

(** X14. Releasing the button on a stroke of fewer than three points
    paints nothing and saves nothing: raster, counter, undo stack and disk
    are unchanged, and the stroke is discarded. *)
Theorem short_stroke_paints_nothing e W :
  is_Some (image (canvas (window W))) ->
  is_cmd_pressed (canvas (window W)) = false ->
  is_panning (canvas (window W)) = false ->
  is_drawing (canvas (window W)) = true ->
  left_button e = true ->
  (length (current_polygon (canvas (window W))) < 3)%nat ->
  fst (mouseReleaseEvent e W) = None
  /\ masks (canvas (window (snd (mouseReleaseEvent e W)))) = masks (canvas (window W))
  /\ next_mask_id (canvas (window (snd (mouseReleaseEvent e W))))
     = next_mask_id (canvas (window W))
  /\ undo_stack (window (snd (mouseReleaseEvent e W))) = undo_stack (window W)
  /\ disk (snd (mouseReleaseEvent e W)) = disk W
  /\ current_polygon (canvas (window (snd (mouseReleaseEvent e W)))) = []
  /\ is_drawing (canvas (window (snd (mouseReleaseEvent e W)))) = false.
Proof.
  intros [img Himg] Hcmd Hpan Hdraw Hleft Hlen.
  unfold mouseReleaseEvent. rewrite Himg, Hcmd, Hpan, Hdraw, Hleft. simpl andb. cbv iota.
  destruct (3 <=? _)%nat eqn:E; [apply Nat.leb_le in E; lia|]. done.
Qed.

Lemma positive_sum_has_nonzero l :
  0 < fold_right Z.add 0 l -> exists i x, l !! i = Some x /\ x <> 0.
Proof.
  induction l as [|y t IH]; simpl; [lia|]. intros Hs.
  destruct (Z.eq_dec y 0) as [->|Hy].
  - destruct (IH Hs) as (i & x & Hi & Hx). by exists (S i), x.
  - by exists O, y.
Qed.

(** X15. When the counter is above every cell, a committed paint uses
    the counter as the new ID, which no cell held before, reports at least
    one pixel, raises the counter by one so that it is again above every
    cell, and on a well-formed raster writes the ID to some cell that
    held no instance. *)
Theorem paint_uses_fresh_id w m id n :
  masks (canvas w) = Some m ->
  ids_below (next_mask_id (canvas w)) m ->
  fst (_create_mask_from_polygon w) = Created id n ->
  id = next_mask_id (canvas w)
  /\ 0 < n
  /\ (id ∉ data m)
  /\ next_mask_id (canvas (snd (_create_mask_from_polygon w))) = id + 1
  /\ exists m', masks (canvas (snd (_create_mask_from_polygon w))) = Some m'
       /\ ids_below (id + 1) m'
       /\ (well_formed m ->
           exists i u, data m !! i = Some u /\ u <= 0 /\ data m' !! i = Some id).
Proof.
  intros Hm Hbelow. unfold _create_mask_from_polygon.
  destruct (_ <? 3)%nat; [done|]. rewrite Hm.
  destruct (shape m) as [|h [|wd [|]]] eqn:Hs; try done.
  destruct (negb _); [done|].
  fold (surviving_fill m (current_polygon (canvas w)) h wd).
  destruct (0 <? np_sum _) eqn:Hsum; [|done].
  destruct (fits _ _); [|done]. cbn [fst snd]. intros [= <- <-].
  rewrite add_to_undo_stack_canvas. cbn [canvas set_canvas next_mask_id set_next_mask_id masks set_masks].
  apply Z.ltb_lt in Hsum.
  split; [done|]. split; [done|]. split.
  { intros Hin. unfold ids_below in Hbelow.
    pose proof (proj1 (Forall_forall _ _) Hbelow _ Hin). simpl in *. lia. }
  split; [done|]. eexists. split; [done|]. split.
  - unfold ids_below, assign_where_one. simpl. apply Forall_lookup. intros i u.
    rewrite list_lookup_imap. destruct (data m !! i) as [u0|] eqn:Hu; [|done].
    simpl. intros [= <-].
    pose proof (proj1 (Forall_lookup _ _) Hbelow _ _ Hu). simpl in *.
    destruct (_ =? 1); lia.
  - intros Hwf.
    destruct (positive_sum_has_nonzero _ Hsum) as (i & x & Hi & Hx).
    rewrite surviving_fill_lookup in Hi. case_bool_decide as Hlt; [|done].
    injection Hi as Hi.
    destruct (lookup_lt_is_Some_2 (data m) i) as [u Hu].
    { unfold well_formed in Hwf. by rewrite Hwf, Hs. }
    exists i, u. split; [done|].
    rewrite Hu in Hi. simpl in Hi.
    destruct (0 <? u) eqn:Epos; [lia|]. split; [lia|].
    rewrite (assign_where_one_lookup _ _ _ _ _ Hu).
    rewrite surviving_fill_lookup, bool_decide_eq_true_2, Hu by done. simpl.
    rewrite Epos. destruct (poly_covers _ _ _); [done|lia].
Qed.




Lemma np_max_none a : np_max a = None -> data a = [].
Proof. unfold np_max. by destruct (data a). Qed.

Lemma ids_below_zeros shp t n : 1 <= n -> ids_below n (np_zeros shp t).
Proof.
  intros Hn. unfold ids_below, np_zeros. simpl.
  apply Forall_forall. intros v Hv. apply elem_of_replicate in Hv as [-> _]. lia.
Qed.

(** The pair that a load installs keeps the counter above the raster. *)
Lemma loaded_pair_fresh (fs : filesystem) p h w n :
  1 <= n ->
  1 <= snd (loaded_pair fs p h w n)
  /\ ids_below (snd (loaded_pair fs p h w n)) (fst (loaded_pair fs p h w n)).
Proof.
  intros Hn. unfold loaded_pair.
  assert (Hz : 1 <= n /\ ids_below n (np_zeros [h; w] np_int32))
    by (split; [done|by apply ids_below_zeros]).
  destruct (path_exists _ _); [|done].
  unfold load_existing_masks.
  destruct (np_load _ _) as [loaded|]; [|done].
  destruct (masks_candidate loaded) as [a|]; [|done].
  destruct (2 <=? ndim a)%nat; [|done].
  case_bool_decide as Hs; [|done].
  destruct (np_max _) as [mx|] eqn:Hmx.
  - pose proof (np_max_bound _ _ Hmx) as Hb.
    destruct (0 <? mx) eqn:E; cbn [fst snd].
    + split; [lia|]. eapply Forall_impl; [exact Hb|]. simpl. lia.
    + split; [done|]. eapply Forall_impl; [exact Hb|]. simpl. lia.
  - cbn [fst snd]. split; [done|]. unfold ids_below.
    by rewrite (np_max_none _ Hmx).
Qed.

(** ** What each handler does to the store *)

Lemma store_of_load_image p W h w :
  imread (disk W) p = Some (h, w) ->
  store_of (window (snd (load_image p W)))
  = (Some (h, w),
     snd (loaded_pair (disk W) p h w (next_mask_id (canvas (window W)))),
     Some (fst (loaded_pair (disk W) p h w (next_mask_id (canvas (window W))))),
     undo_stack (window W)).
Proof. intros Himg. by rewrite (load_image_unfold p W h w Himg). Qed.

Lemma store_of_save_before_switch W :
  store_of (window (save_before_switch W)) = store_of (window W).
Proof. by rewrite save_before_switch_window. Qed.

Lemma step_of_switch W1 W p h w :
  window W1 = window W ->
  imread (disk W1) p = Some (h, w) ->
  store_step false (store_of (window W))
    (store_of (window (clear_undo_stack (snd (load_image p W1))))).
Proof.
  intros Hw Himg.
  assert (Hs : store_of (window (clear_undo_stack (snd (load_image p W1))))
    = (Some (h, w),
       snd (loaded_pair (disk W1) p h w (next_mask_id (canvas (window W)))),
       Some (fst (loaded_pair (disk W1) p h w (next_mask_id (canvas (window W))))),
       [])).
  { rewrite (load_image_unfold p W1 h w Himg). by rewrite Hw. }
  rewrite Hs. unfold store_of at 1.
  apply step_switch; [apply loaded_pair_shape|apply loaded_pair_fresh].
Qed.

Lemma step_of_open_image_dialog filepath W :
  store_step false (store_of (window W))
    (store_of (window (open_image_dialog filepath W))).
Proof.
  unfold open_image_dialog. destruct (String.eqb filepath ""); [constructor|].
  destruct (imread _ filepath) as [[h w]|] eqn:Himg.
  - apply (step_of_switch _ W filepath h w); [apply save_before_switch_window|done].
  - rewrite store_of_save_before_switch. constructor.
Qed.

Lemma step_of_load_at_index i W :
  store_step false (store_of (window W)) (store_of (window (load_at_index i W))).
Proof.
  unfold load_at_index.
  set (W1 := set_index i (save_before_switch W)).
  assert (Hst : store_of (window W1) = store_of (window W))
    by (unfold W1; cbn; by rewrite save_before_switch_window).
  destruct (tiff_files (window W1) !! Z.to_nat i) as [next_file|];
    [|rewrite Hst; constructor].
  destruct (imread (disk W1) next_file) as [[h w]|] eqn:Himg;
    [|rewrite Hst; constructor].
  rewrite <- Hst.
  apply (step_of_switch W1 W1 next_file h w); done.
Qed.

Lemma step_of_load_previous_file W :
  store_step false (store_of (window W)) (store_of (window (load_previous_file W))).
Proof.
  unfold load_previous_file.
  destruct (_ =? 0)%nat; [constructor|]. destruct (_ <=? 0); [constructor|].
  apply step_of_load_at_index.
Qed.

Lemma step_of_load_next_file W :
  store_step false (store_of (window W)) (store_of (window (load_next_file W))).
Proof.
  unfold load_next_file.
  destruct (_ =? 0)%nat; [constructor|]. destruct (_ <=? _); [constructor|].
  apply step_of_load_at_index.
Qed.

Lemma step_of_dropEvent urls W :
  exists d, store_step d (store_of (window W)) (store_of (window (dropEvent urls W))).
Proof.
  unfold dropEvent. destruct urls as [|filepath ?]; [exists false; constructor|].
  destruct (_ || _); [|exists false; constructor].
  destruct (imread (disk (save_before_switch W)) filepath) as [[h w]|] eqn:Himg.
  - exists true. rewrite (store_of_load_image _ _ h w Himg).
    rewrite save_before_switch_window. unfold store_of.
    apply step_drop; [apply loaded_pair_shape|apply loaded_pair_fresh].
  - exists false. unfold load_image. rewrite Himg. cbn [snd].
    rewrite store_of_save_before_switch. constructor.
Qed.

Lemma store_of_add_to_undo_stack w m :
  masks (canvas w) = Some m ->
  store_of (add_to_undo_stack w)
  = (image (canvas w), next_mask_id (canvas w), Some m, pushed (undo_stack w) m).
Proof.
  intros Hm. unfold store_of. rewrite add_to_undo_stack_canvas, Hm.
  unfold add_to_undo_stack, pushed. rewrite Hm.
  by destruct (_ <? _)%nat.
Qed.

Lemma step_of_create w :
  store_step false (store_of w) (store_of (snd (_create_mask_from_polygon w))).
Proof.
  unfold _create_mask_from_polygon.
  destruct (_ <? 3)%nat; [constructor|].
  destruct (masks (canvas w)) as [m|] eqn:Hm; [|constructor].
  destruct (shape m) as [|h [|wd [|]]] eqn:Hs; try constructor.
  destruct (negb _); [constructor|].
  destruct (0 <? np_sum _); [|constructor].
  destruct (fits _ _); [|constructor]. cbn [snd].
  erewrite store_of_add_to_undo_stack by reflexivity. cbn.
  unfold store_of. rewrite Hm. by eapply step_paint.
Qed.

Lemma step_of_delete x y W :
  store_step false (store_of (window W))
    (store_of (window (snd (_delete_mask_at x y W)))).
Proof.
  unfold _delete_mask_at.
  destruct (masks (canvas (window W))) as [m|] eqn:Hm; [|constructor].
  destruct (shape m) as [|h [|wd [|]]] eqn:Hs; try constructor.
  destruct (_ && _); [|constructor].
  destruct (getitem2 m y x) as [v|]; [|constructor].
  destruct (0 <? v); [|constructor]. cbn [snd window].
  pose proof (store_of_add_to_undo_stack (window W) m Hm) as Hst.
  unfold store_of in *. cbn. rewrite Hm.
  injection Hst as H1 H2 H3 H4. rewrite H1, H2, H4. apply step_erase.
Qed.

Lemma py_pop_Some {A} (l : list A) x rest :
  py_pop l = Some (x, rest) -> l = rest ++ [x].
Proof.
  unfold py_pop. destruct (rev l) as [|y r] eqn:E; [done|]. intros [= <- <-].
  rewrite <- (rev_involutive l), E. done.
Qed.

Lemma step_of_undo W :
  store_step false (store_of (window W)) (store_of (window (undo W))).
Proof.
  unfold undo. destruct (py_pop _) as [[m rest]|] eqn:Hpop; [|constructor].
  apply py_pop_Some in Hpop. unfold store_of. cbn. rewrite Hpop. apply step_undo.
Qed.

Lemma step_of_mousePressEvent e W :
  store_of (window (mousePressEvent e W)) = store_of (window W).
Proof.
  unfold mousePressEvent. destruct (image _); [|done].
  destruct (_ && _); [done|]. destruct (_ && _); [done|]. by destruct (left_button e).
Qed.

Lemma step_of_mouseMoveEvent e W :
  store_of (window (mouseMoveEvent e W)) = store_of (window W).
Proof.
  unfold mouseMoveEvent. destruct (image _); [|done].
  destruct (_ && _); [done|]. destruct (_ && _); [done|].
  destruct (is_drawing _); [|done].
  destruct (last _); [|done]. destruct (np_sqrt_raises _ _); [done|].
  by destruct (far_enough _ _).
Qed.

Lemma step_of_mouseReleaseEvent e W :
  store_step false (store_of (window W))
    (store_of (window (snd (mouseReleaseEvent e W)))).
Proof.
  unfold mouseReleaseEvent. destruct (image _); [|constructor].
  destruct (_ && _).
  { pose proof (step_of_delete (ev_x e) (ev_y e) W) as Hd.
    destruct (_delete_mask_at _ _ W) as [sig W']. simpl in Hd.
    by destruct sig. }
  destruct (is_panning _); [constructor|].
  destruct (_ && _); [|constructor].
  destruct (3 <=? _)%nat; [|constructor].
  pose proof (step_of_create (window (on_canvas (set_is_drawing false) W))) as Hc.
  destruct (_create_mask_from_polygon _) as [sig w'].
  simpl in Hc. by destruct sig.
Qed.

(** Every action is one step of the store, and only a drop keeps the undo
    stack across a change of image. *)
Lemma step_of_run a W :
  exists d, store_step d (store_of (window W)) (store_of (window (run a W)))
            /\ (is_drop a = false -> d = false).
Proof.
  destruct a as [e|e|e|k|k|k modifier| |filepath|urls]; simpl.
  - exists false. rewrite step_of_mousePressEvent. split; [constructor|done].
  - exists false. rewrite step_of_mouseMoveEvent. split; [constructor|done].
  - exists false. split; [apply step_of_mouseReleaseEvent|done].
  - exists false. split; [|done].
    destruct k; simpl; try constructor;
      [apply step_of_load_previous_file|apply step_of_load_next_file].
  - exists false. split; [|done]. destruct k; constructor.
  - exists false. split; [|done].
    destruct k; simpl; try constructor;
      [apply step_of_load_previous_file|apply step_of_load_next_file|].
    destruct modifier; [apply step_of_undo|constructor].
  - exists false. split; [apply step_of_undo|done].
  - exists false. split; [apply step_of_open_image_dialog|done].
  - destruct (step_of_dropEvent urls W) as [d Hd]. exists d. split; [done|done].
Qed.


(** ** Invariants of a session *)

Lemma ids_below_mono n n' m : n <= n' -> ids_below n m -> ids_below n' m.
Proof.
  intros Hn Hb. unfold ids_below. eapply Forall_impl; [exact Hb|]. simpl. lia.
Qed.

Lemma Forall_tail {A} (P : A -> Prop) l : Forall P l -> Forall P (tail l).
Proof. by destruct 1. Qed.

Lemma Forall_pushed (P : ndarray -> Prop) stack m :
  Forall P stack -> P m -> Forall P (pushed stack m).
Proof.
  intros Hs Hm. unfold pushed.
  assert (Forall P (stack ++ [m])) by (apply Forall_app; split; [done|by constructor]).
  destruct (_ <? _)%nat; [by apply Forall_tail|done].
Qed.

Lemma length_pushed stack m :
  (length stack <= max_undo_steps)%nat -> (length (pushed stack m) <= max_undo_steps)%nat.
Proof.
  intros Hl. unfold pushed. destruct (_ <? _)%nat eqn:E.
  - rewrite length_tl, length_app. simpl. lia.
  - by apply Nat.ltb_ge in E.
Qed.

Lemma ids_below_assign n m nm :
  ids_below n m -> ids_below (n + 1) (assign_where_one m nm n).
Proof.
  intros Hb. unfold ids_below, assign_where_one. simpl.
  apply Forall_lookup. intros i u. rewrite list_lookup_imap.
  destruct (data m !! i) as [u0|] eqn:Hu; [|done]. simpl. intros [= <-].
  pose proof (proj1 (Forall_lookup _ _) Hb _ _ Hu). simpl in *.
  destruct (_ =? 1); lia.
Qed.

Lemma ids_below_clear n m v : 1 <= n -> ids_below n m -> ids_below n (clear_equal m v).
Proof.
  intros Hn Hb. unfold ids_below, clear_equal. simpl. apply Forall_map.
  eapply Forall_impl; [exact Hb|]. simpl. intros u Hu. destruct (u =? v); lia.
Qed.

Lemma ids_fresh_store_step d s s' :
  store_step d s s' -> d = false ->
  (let '(_, n, om, st) := s in
   1 <= n /\ (forall m, om = Some m -> ids_below n m) /\ Forall (ids_below n) st) ->
  (let '(_, n, om, st) := s' in
   1 <= n /\ (forall m, om = Some m -> ids_below n m) /\ Forall (ids_below n) st).
Proof.
  destruct 1 as
    [s|img n m nm stack h wd Hs|img n m v stack|img n old m rest
    |img n old stack h wd m n' Hs Hfresh|img n old stack h wd m n' Hs Hfresh];
    intros Hd; try discriminate.
  - done.
  - intros (Hone & Hmask & Hstack). specialize (Hmask m eq_refl).
    split; [lia|]. split.
    + intros ? [= <-]. by apply ids_below_assign.
    + apply Forall_pushed; [|by apply ids_below_assign].
      eapply Forall_impl; [exact Hstack|]. intros ?. apply ids_below_mono. lia.
  - intros (Hone & Hmask & Hstack). specialize (Hmask m eq_refl).
    split; [done|]. split.
    + intros ? [= <-]. by apply ids_below_clear.
    + by apply Forall_pushed.
  - intros (Hone & Hmask & Hstack). apply Forall_app in Hstack as [Hrest Hlast].
    split; [done|]. split; [|done].
    intros ? [= <-]. by inversion Hlast.
  - intros (Hone & _ & _). destruct (Hfresh Hone) as [Hone' Hb].
    split; [done|]. split; [by intros ? [= <-]|constructor].
Qed.

Lemma ids_fresh_step w w' :
  store_step false (store_of w) (store_of w') -> ids_fresh w -> ids_fresh w'.
Proof. intros Hstep. by apply (ids_fresh_store_step _ _ _ Hstep). Qed.

Lemma shape2_assign m nm n : shape2 (assign_where_one m nm n) = shape2 m.
Proof. done. Qed.

Lemma shape2_clear m v : shape2 (clear_equal m v) = shape2 m.
Proof. done. Qed.

Lemma raster_fits_store_step d s s' :
  store_step d s s' -> d = false ->
  (let '(img, _, om, st) := s in
   match img with
   | Some (h, wd) =>
       (exists m, om = Some m /\ shape2 m = [h; wd])
       /\ Forall (fun m => shape2 m = [h; wd]) st
   | None => om = None /\ st = []
   end) ->
  (let '(img, _, om, st) := s' in
   match img with
   | Some (h, wd) =>
       (exists m, om = Some m /\ shape2 m = [h; wd])
       /\ Forall (fun m => shape2 m = [h; wd]) st
   | None => om = None /\ st = []
   end).
Proof.
  destruct 1 as
    [s|img n m nm stack h wd Hs|img n m v stack|img n old m rest
    |img n old stack h wd m n' Hs Hfresh|img n old stack h wd m n' Hs Hfresh];
    intros Hd; try discriminate.
  - done.
  - destruct img as [[h' wd']|]; [|by intros [? _]].
    intros [(m0 & [= <-] & Hsh) Hstack]. split.
    + eexists. split; [done|]. by rewrite shape2_assign.
    + apply Forall_pushed; [done|]. by rewrite shape2_assign.
  - destruct img as [[h' wd']|]; [|by intros [? _]].
    intros [(m0 & [= <-] & Hsh) Hstack]. split.
    + eexists. split; [done|]. by rewrite shape2_clear.
    + by apply Forall_pushed.
  - destruct img as [[h' wd']|].
    + intros [_ Hstack]. apply Forall_app in Hstack as [Hrest Hlast].
      split; [|done]. eexists. split; [done|]. by inversion Hlast.
    + intros [_ Hnil]. by destruct rest.
  - intros _. split; [by eexists|constructor].
Qed.

Lemma raster_fits_image_step w w' :
  store_step false (store_of w) (store_of w') ->
  raster_fits_image w -> raster_fits_image w'.
Proof. intros Hstep. by apply (raster_fits_store_step _ _ _ Hstep). Qed.

Lemma stack_bounded_store_step d s s' :
  store_step d s s' ->
  (length (snd s) <= max_undo_steps)%nat -> (length (snd s') <= max_undo_steps)%nat.
Proof.
  destruct 1; simpl; try done.
  - apply length_pushed.
  - apply length_pushed.
  - rewrite length_app. simpl. lia.
  - lia.
Qed.

Lemma stack_bounded_step d w w' :
  store_step d (store_of w) (store_of w') ->
  (length (undo_stack w) <= max_undo_steps)%nat ->
  (length (undo_stack w') <= max_undo_steps)%nat.
Proof. intros Hstep. apply (stack_bounded_store_step _ _ _ Hstep). Qed.

Lemma run_all_snoc actions a W : run_all (actions ++ [a]) W = run a (run_all actions W).
Proof. unfold run_all. by rewrite fold_left_app. Qed.

(** X16. In a session without drag-and-drop the counter stays above
    every ID of the raster and of every undo snapshot, so no paint and no
    undo can bring two instances under one ID. *)
Theorem session_ids_stay_below_counter actions W :
  ids_fresh (window W) ->
  forallb (fun a => negb (is_drop a)) actions = true ->
  ids_fresh (window (run_all actions W)).
Proof.
  intros Hstart. induction actions as [|a actions IH] using rev_ind; [done|].
  rewrite forallb_app. simpl. rewrite andb_true_r.
  intros [Hacts Ha]%andb_true_iff. rewrite run_all_snoc.
  destruct (step_of_run a (run_all actions W)) as (d & Hstep & Hd).
  rewrite Hd in Hstep by (by destruct (is_drop a)).
  eapply ids_fresh_step; [exact Hstep|]. by apply IH.
Qed.

(** X17. In a session without drag-and-drop the raster and every undo
    snapshot have the leading dimensions of the open image, and without
    an image there is neither. *)
Theorem session_raster_fits_image actions W :
  raster_fits_image (window W) ->
  forallb (fun a => negb (is_drop a)) actions = true ->
  raster_fits_image (window (run_all actions W)).
Proof.
  intros Hstart. induction actions as [|a actions IH] using rev_ind; [done|].
  rewrite forallb_app. simpl. rewrite andb_true_r.
  intros [Hacts Ha]%andb_true_iff. rewrite run_all_snoc.
  destruct (step_of_run a (run_all actions W)) as (d & Hstep & Hd).
  rewrite Hd in Hstep by (by destruct (is_drop a)).
  eapply raster_fits_image_step; [exact Hstep|]. by apply IH.
Qed.

(** X18. In every session, drag-and-drop included, the undo stack never
    holds more than fifty snapshots. *)
Theorem session_undo_stack_bounded actions (fs : filesystem) :
  (length (undo_stack (window (run_all actions (startup fs)))) <= max_undo_steps)%nat.
Proof.
  induction actions as [|a actions IH] using rev_ind; [simpl; unfold max_undo_steps; lia|].
  rewrite run_all_snoc.
  destruct (step_of_run a (run_all actions (startup fs))) as (d & Hstep & _).
  by eapply stack_bounded_step.
Qed.

(** ** The polygon being drawn *)

Lemma spaced_nil : spaced [].
Proof. intros i p q H. by destruct i. Qed.

Lemma spaced_singleton pt : spaced [pt].
Proof. intros i p q _ H. destruct i; done. Qed.

Lemma spaced_snoc l p q :
  spaced l -> last l = Some p -> far_enough q p = true -> spaced (l ++ [q]).
Proof.
  intros Hsp Hlast Hfar i a b Ha Hb.
  destruct (decide (S i < length l)%nat) as [Hlt|Hge].
  - rewrite lookup_app_l in Ha by lia. rewrite lookup_app_l in Hb by lia. eauto.
  - assert (Hi : S i = length l).
    { apply lookup_lt_Some in Hb. rewrite length_app in Hb. simpl in Hb. lia. }
    rewrite lookup_app_l in Ha by lia.
    rewrite lookup_app_r in Hb by lia. rewrite Hi, Nat.sub_diag in Hb.
    injection Hb as <-.
    rewrite last_lookup in Hlast. rewrite <- Hi in Hlast. simpl in Hlast.
    rewrite Ha in Hlast. by injection Hlast as ->.
Qed.


Lemma polygon_load_image p W :
  polygon_of (snd (load_image p W)) = [] \/ snd (load_image p W) = W.
Proof.
  unfold load_image. destruct (imread _ _) as [[h w]|]; [|by right].
  left. by destruct (if path_exists _ _ then _ else _).
Qed.

Lemma polygon_save_before_switch W : polygon_of (save_before_switch W) = polygon_of W.
Proof. by rewrite save_before_switch_window. Qed.

Lemma spaced_load_image p W : spaced (polygon_of W) -> spaced (polygon_of (snd (load_image p W))).
Proof.
  intros Hsp. destruct (polygon_load_image p W) as [-> | ->]; [apply spaced_nil|done].
Qed.

Lemma spaced_open_image_dialog filepath W :
  spaced (polygon_of W) -> spaced (polygon_of (open_image_dialog filepath W)).
Proof.
  intros Hsp. unfold open_image_dialog. destruct (String.eqb _ _); [done|].
  destruct (imread _ _); [|by rewrite polygon_save_before_switch].
  apply (spaced_load_image filepath (save_before_switch W)).
  by rewrite polygon_save_before_switch.
Qed.

Lemma spaced_load_at_index i W :
  spaced (polygon_of W) -> spaced (polygon_of (load_at_index i W)).
Proof.
  intros Hsp. unfold load_at_index.
  set (W1 := set_index i (save_before_switch W)).
  assert (Hp : polygon_of W1 = polygon_of W)
    by (unfold W1; cbn; by rewrite save_before_switch_window).
  destruct (_ !! _); [|by rewrite Hp].
  destruct (imread _ _); [|by rewrite Hp].
  apply (spaced_load_image _ W1). by rewrite Hp.
Qed.

Lemma spaced_navigation W :
  spaced (polygon_of W) ->
  spaced (polygon_of (load_previous_file W)) /\ spaced (polygon_of (load_next_file W)).
Proof.
  intros Hsp. unfold load_previous_file, load_next_file.
  destruct (_ =? 0)%nat; [done|]. split.
  - destruct (_ <=? 0); [done|]. by apply spaced_load_at_index.
  - destruct (_ <=? _); [done|]. by apply spaced_load_at_index.
Qed.

Lemma polygon_undo W : polygon_of (undo W) = polygon_of W.
Proof. unfold undo. by destruct (py_pop _) as [[? ?]|]. Qed.

Lemma polygon_delete x y W : polygon_of (snd (_delete_mask_at x y W)) = polygon_of W.
Proof.
  unfold _delete_mask_at. destruct (masks _) as [m|]; [|done].
  destruct (shape m) as [|h [|wd [|]]]; try done.
  destruct (_ && _); [|done]. destruct (getitem2 _ _ _) as [v|]; [|done].
  destruct (0 <? v); [|done].
  cbn [snd window canvas set_canvas set_masks current_polygon].
  by rewrite add_to_undo_stack_canvas.
Qed.

Lemma polygon_create w :
  current_polygon (canvas (snd (_create_mask_from_polygon w))) = current_polygon (canvas w).
Proof.
  unfold _create_mask_from_polygon. destruct (_ <? 3)%nat; [done|].
  destruct (masks _) as [m|]; [|done].
  destruct (shape m) as [|h [|wd [|]]]; try done.
  destruct (negb _); [done|]. destruct (0 <? np_sum _); [|done].
  destruct (fits _ _); [|done]. cbn [snd]. by rewrite add_to_undo_stack_canvas.
Qed.

Lemma spaced_mouseReleaseEvent e W :
  spaced (polygon_of W) -> spaced (polygon_of (snd (mouseReleaseEvent e W))).
Proof.
  intros Hsp. unfold mouseReleaseEvent. destruct (image _); [|done].
  destruct (_ && _).
  { pose proof (polygon_delete (ev_x e) (ev_y e) W) as Hd.
    destruct (_delete_mask_at _ _ W) as [sig W']. simpl in Hd.
    destruct sig; cbn; by rewrite ?Hd. }
  destruct (is_panning _); [done|].
  destruct (_ && _); [|done].
  destruct (3 <=? _)%nat; [|apply spaced_nil].
  pose proof (polygon_create (window (on_canvas (set_is_drawing false) W))) as Hc.
  destruct (_create_mask_from_polygon _) as [sig w']. simpl in Hc.
  destruct sig; cbn; try apply spaced_nil. by rewrite Hc.
Qed.

Lemma spaced_mousePressEvent e W :
  spaced (polygon_of W) -> spaced (polygon_of (mousePressEvent e W)).
Proof.
  intros Hsp. unfold mousePressEvent. destruct (image _); [|done].
  destruct (_ && _); [done|]. destruct (_ && _); [done|].
  destruct (left_button e); [apply spaced_singleton|done].
Qed.

Lemma spaced_mouseMoveEvent e W :
  spaced (polygon_of W) -> spaced (polygon_of (mouseMoveEvent e W)).
Proof.
  intros Hsp. unfold mouseMoveEvent. destruct (image _); [|done].
  destruct (_ && _); [done|]. destruct (_ && _); [done|].
  destruct (is_drawing _); [|done].
  destruct (last _) as [q|] eqn:Hlast; [|apply spaced_singleton].
  destruct (np_sqrt_raises _ _); [done|].
  destruct (far_enough _ _) eqn:Hfar; [|done].
  cbn. by eapply spaced_snoc.
Qed.

(** X19. In every session, consecutive points of the polygon being
    drawn are more than two pixels apart. *)
Theorem session_polygon_points_spaced actions (fs : filesystem) :
  spaced (current_polygon (canvas (window (run_all actions (startup fs))))).
Proof.
  induction actions as [|a actions IH] using rev_ind; [apply spaced_nil|].
  unfold run_all in *. rewrite fold_left_app. simpl.
  set (W := fold_left _ actions _) in *.
  destruct a as [e|e|e|k|k|k modifier| |filepath|urls]; simpl.
  - by apply spaced_mousePressEvent.
  - by apply spaced_mouseMoveEvent.
  - by apply spaced_mouseReleaseEvent.
  - destruct k; simpl; try done; by apply spaced_navigation.
  - destruct k; simpl; done.
  - destruct k; simpl; try done; try (by apply spaced_navigation).
    destruct modifier; [by rewrite polygon_undo|done].
  - by rewrite polygon_undo.
  - by apply spaced_open_image_dialog.
  - unfold dropEvent. destruct urls; [done|]. destruct (_ || _); [|done].
    apply (spaced_load_image _ (save_before_switch W)).
    by rewrite polygon_save_before_switch.
Qed.

(** ** Migration of one file *)

Lemma backup_path_differs p : (p ++ ".backup")%string <> p.
Proof.
  intros H. rewrite <- (append_nil_r p) in H at 2.
  by apply append_cancel_l in H.
Qed.

Lemma convert_dry_run_disk mask_path backup (fs : filesystem) :
  snd (convert_file mask_path true backup fs) = fs.
Proof.
  unfold convert_file.
  destruct (np_load fs mask_path) as [data|]; [|done].
  destruct (is_cellpose_format data); [done|].
  destruct data as [a | o].
  - destruct (2 <=? ndim a)%nat; [|done].
    by destruct (get_corresponding_tif fs mask_path).
  - destruct o; try done.
    destruct (d !! "masks"%string) as [ma|]; [|done].
    destruct (get_corresponding_tif fs mask_path); [|done].
    destruct ma; try done; unfold count_and_fail; by destruct (len_unique _).
Qed.

(** X22. With [dry_run] on, [convert_file] never changes the disk. *)
Theorem convert_dry_run_writes_nothing mask_path backup (fs : filesystem) :
  snd (convert_file mask_path true backup fs) = fs.
Proof. apply convert_dry_run_disk. Qed.

(** What [count_and_convert] leaves on the disk when it writes. *)
Lemma count_and_convert_written (fs : filesystem) mask_path backup a tif u n u' :
  fst (count_and_convert fs mask_path false backup a tif u) = converted n u' ->
  exists o,
    generate_outlines a = Some o
    /\ n = Z.of_nat (length (np_unique a)) - 1 /\ u' = u
    /\ snd (count_and_convert fs mask_path false backup a tif u)
       = <[mask_path := FNpy (ObjScalar (PyDict
             (cellpose_data o (generate_colors a) a tif)))]>
           (if backup then
              match fs !! mask_path with
              | Some f => <[(mask_path ++ ".backup")%string := f]> fs
              | None => fs
              end
            else fs).
Proof.
  unfold count_and_convert, convert_to_cellpose_format.
  destruct (generate_outlines a) as [o|]; cbn [mbind option_bind fst snd]; [|done].
  intros [= <- <-]. by exists o.
Qed.

(** The branch of [convert_file] that migrates: the array found in the
    file, its TIFF, and the flag of the message. *)
Lemma convert_file_migrates mask_path dry_run backup (fs : filesystem) data a tif :
  np_load fs mask_path = Some data ->
  partial_or_simple data ->
  masks_candidate data = Some a ->
  get_corresponding_tif fs mask_path = Some tif ->
  convert_file mask_path dry_run backup fs
  = count_and_convert fs mask_path dry_run backup a tif
      (match data with NumArray _ => false | ObjScalar _ => true end).
Proof.
  intros Hload Hshape Hcand Htif. unfold convert_file. rewrite Hload.
  destruct data as [a' | o].
  - cbn [is_cellpose_format]. unfold partial_or_simple in Hshape.
    injection Hcand as ->.
    destruct (2 <=? ndim a)%nat eqn:E; [|apply Nat.leb_gt in E; lia].
    by rewrite Htif.
  - destruct o; try done. destruct Hshape as [[ma Hma] Hnot].
    rewrite Hnot, Hma, Htif. cbn [masks_candidate] in Hcand. rewrite Hma in Hcand.
    destruct ma; try done. by injection Hcand as ->.
Qed.

(** X21. With its TIFF found, [dry_run] off and OpenCV accepting the
    array, a partial dictionary or a simple array is reported as
    converted and overwritten by a complete dictionary that holds the
    same array cast to uint16 and the TIFF path as file name. *)
Theorem convert_upgrades_to_complete mask_path backup (fs : filesystem) data a tif o :
  np_load fs mask_path = Some data ->
  partial_or_simple data ->
  masks_candidate data = Some a ->
  get_corresponding_tif fs mask_path = Some tif ->
  generate_outlines a = Some o ->
  fst (convert_file mask_path false backup fs)
    = converted (Z.of_nat (length (np_unique a)) - 1)
                (match data with NumArray _ => false | ObjScalar _ => true end)
  /\ exists d,
       np_load (snd (convert_file mask_path false backup fs)) mask_path
         = Some (ObjScalar (PyDict d))
       /\ is_cellpose_format (ObjScalar (PyDict d)) = true
       /\ masks_candidate (ObjScalar (PyDict d)) = Some (astype np_uint16 a)
       /\ d !! "filename"%string = Some (PyStr tif).
Proof.
  intros Hload Hshape Hcand Htif Ho.
  rewrite (convert_file_migrates _ _ _ _ _ _ _ Hload Hshape Hcand Htif).
  unfold count_and_convert, convert_to_cellpose_format. rewrite Ho.
  cbn [mbind option_bind fst snd]. split; [done|].
  eexists. unfold np_load. rewrite lookup_insert_eq. split; [done|].
  repeat split.
Qed.

Lemma convert_file_converted mask_path backup (fs : filesystem) n u :
  fst (convert_file mask_path false backup fs) = converted n u ->
  exists a tif,
    fst (count_and_convert fs mask_path false backup a tif u) = converted n u
    /\ convert_file mask_path false backup fs
       = count_and_convert fs mask_path false backup a tif u.
Proof.
  unfold convert_file.
  destruct (np_load fs mask_path) as [data|]; [|done].
  destruct (is_cellpose_format data); [done|].
  destruct data as [a | o].
  - destruct (2 <=? ndim a)%nat; [|done].
    destruct (get_corresponding_tif fs mask_path) as [tif|]; [|done].
    intros H. exists a, tif.
    destruct (count_and_convert_written _ _ _ _ _ _ _ _ H) as (? & _ & _ & -> & _).
    by split.
  - destruct o; try done.
    destruct (d !! "masks"%string) as [ma|]; [|done].
    destruct (get_corresponding_tif fs mask_path) as [tif|]; [|done].
    destruct ma; try (unfold count_and_fail; by destruct (len_unique _)).
    intros H. exists a, tif.
    destruct (count_and_convert_written _ _ _ _ _ _ _ _ H) as (? & _ & _ & -> & _).
    by split.
Qed.

(** X23. Migration is idempotent: after a file has been converted, any
    further [convert_file] on it reports it as already complete and
    changes nothing. *)
Theorem convert_twice_is_already_complete mask_path backup dry_run' backup'
    (fs : filesystem) n u :
  fst (convert_file mask_path false backup fs) = converted n u ->
  convert_file mask_path dry_run' backup' (snd (convert_file mask_path false backup fs))
  = (already_cellpose, snd (convert_file mask_path false backup fs)).
Proof.
  intros H. destruct (convert_file_converted _ _ _ _ _ H) as (a & tif & Hc & ->).
  destruct (count_and_convert_written _ _ _ _ _ _ _ _ Hc) as (o & _ & _ & _ & ->).
  unfold convert_file at 1, np_load. rewrite lookup_insert_eq.
  by rewrite cellpose_data_complete.
Qed.

(** X24. With [backup] on, a conversion leaves the original content of
    the file under the same path with [.backup] appended. *)
Theorem convert_backup_keeps_original mask_path (fs : filesystem) n u :
  fst (convert_file mask_path false true fs) = converted n u ->
  snd (convert_file mask_path false true fs) !! (mask_path ++ ".backup")%string
  = fs !! mask_path
  /\ is_Some (fs !! mask_path).
Proof.
  intros H. 
  assert (Hsome : is_Some (fs !! mask_path)).
  { unfold convert_file, np_load in H. destruct (fs !! mask_path); [by eexists|done]. }
  split; [|done].
  destruct (convert_file_converted _ _ _ _ _ H) as (a & tif & Hc & ->).
  destruct (count_and_convert_written _ _ _ _ _ _ _ _ Hc) as (o & _ & _ & _ & ->).
  rewrite lookup_insert_ne by (intros Heq; symmetry in Heq; by apply backup_path_differs in Heq).
  destruct Hsome as [f Hf]. rewrite Hf. by rewrite lookup_insert_eq.
Qed.

Lemma count_and_fail_frame (fs : filesystem) mask_path dry_run backup x q :
  (backup = true -> q <> (mask_path ++ ".backup")%string) ->
  snd (count_and_fail fs mask_path dry_run backup x) !! q = fs !! q.
Proof.
  intros Hb. unfold count_and_fail.
  destruct (len_unique x); [|done]. destruct dry_run; [done|]. cbn [snd].
  destruct backup; [|done]. destruct (fs !! mask_path); [|done].
  rewrite lookup_insert_ne; [done|]. intros Heq. by apply Hb.
Qed.

(** X25. [convert_file] changes no path other than the file itself and,
    with [backup] on, its backup. *)
Theorem convert_touches_only_its_files mask_path dry_run backup (fs : filesystem) q :
  q <> mask_path ->
  (backup = true -> q <> (mask_path ++ ".backup")%string) ->
  snd (convert_file mask_path dry_run backup fs) !! q = fs !! q.
Proof.
  intros Hq Hb.
  assert (Hcc : forall a tif u,
    snd (count_and_convert fs mask_path dry_run backup a tif u) !! q = fs !! q).
  { intros a tif u. unfold count_and_convert.
    destruct dry_run; [done|].
    assert (Hfs1 : (if backup then
                      match fs !! mask_path with
                      | Some f => <[(mask_path ++ ".backup")%string := f]> fs
                      | None => fs
                      end
                    else fs) !! q = fs !! q).
    { destruct backup; [|done]. destruct (fs !! mask_path); [|done].
      rewrite lookup_insert_ne; [done|]. intros Heq. by apply Hb. }
    destruct (convert_to_cellpose_format a tif); cbn [snd]; [|done].
    by rewrite lookup_insert_ne. }
  unfold convert_file.
  destruct (np_load fs mask_path) as [data|]; [|done].
  destruct (is_cellpose_format data); [done|].
  destruct data as [a | o].
  - destruct (2 <=? ndim a)%nat; [|done].
    destruct (get_corresponding_tif fs mask_path); [apply Hcc|done].
  - destruct o; try done.
    destruct (d !! "masks"%string) as [ma|]; [|done].
    destruct (get_corresponding_tif fs mask_path); [|done].
    destruct ma; try apply Hcc; apply count_and_fail_frame; done.
Qed.


(** ** The scan *)

Lemma insert_path_perm x l : insert_path x l ≡ₚ x :: l.
Proof.
  induction l as [|y t IH]; simpl; [done|].
  destruct (path_leb x y); [done|]. rewrite IH. apply Permutation_swap.
Qed.

Lemma sorted_paths_perm l : sorted_paths l ≡ₚ l.
Proof.
  unfold sorted_paths. induction l as [|x t IH]; simpl; [done|].
  by rewrite insert_path_perm, IH.
Qed.

Lemma parts_leb_total a b : parts_leb a b = false -> parts_leb b a = true.
Proof.
  revert b. induction a as [|x a IH]; intros [|y b]; simpl; try done.
  rewrite (String.compare_antisym y x).
  destruct (String.compare x y); simpl; try done. apply IH.
Qed.

Lemma insert_path_sorted x l :
  Sorted (fun p q => path_leb p q = true) l ->
  Sorted (fun p q => path_leb p q = true) (insert_path x l).
Proof.
  induction 1 as [|y t Hs IH Hhd]; simpl; [by repeat constructor|].
  destruct (path_leb x y) eqn:E.
  - constructor; [by constructor|]. by constructor.
  - constructor; [done|].
    apply parts_leb_total in E.
    destruct t as [|z t]; simpl in *; [by constructor|].
    destruct (path_leb x z); constructor; try done. by inversion Hhd.
Qed.

Lemma sorted_paths_sorted l : Sorted (fun p q => path_leb p q = true) (sorted_paths l).
Proof.
  unfold sorted_paths. induction l; simpl; [constructor|by apply insert_path_sorted].
Qed.

(** X26. [find_mask_files] returns exactly the files below the directory
    whose name ends with [_seg.npy] and does not start with [._], each
    once, in the order of paths. *)
Theorem find_mask_files_lists_the_containers (fs : filesystem) directory :
  (forall p, p ∈ find_mask_files fs directory
     <-> is_Some (fs !! p)
         /\ is_under directory p = true
         /\ endswith (path_name p) "_seg.npy" = true
         /\ String.prefix "._" (path_name p) = false)
  /\ NoDup (find_mask_files fs directory)
  /\ Sorted (fun p q => path_leb p q = true) (find_mask_files fs directory).
Proof.
  unfold find_mask_files, rglob. split; [|split].
  - intros p. rewrite sorted_paths_perm, !list_elem_of_filter, elem_of_keys. tauto.
  - rewrite sorted_paths_perm. apply NoDup_filter, NoDup_filter.
    apply (NoDup_fst_map_to_list fs).
  - apply sorted_paths_sorted.
Qed.

(** ** The batch *)


Lemma stats_total_bump stats s :
  stats_total (bump stats (status_name s)) = S (stats_total stats).
Proof.
  unfold stats_total, stats_keys, bump.
  destruct s; cbn [status_name map fold_right];
    rewrite lookup_insert_eq, !lookup_insert_ne by done; simpl; lia.
Qed.

Lemma convert_each_total files dry_run backup stats (fs : filesystem) :
  stats_total (fst (convert_each files dry_run backup stats fs))
  = (stats_total stats + length files)%nat.
Proof.
  revert stats fs. induction files as [|p files IH]; intros stats fs; simpl; [lia|].
  destruct (convert_file p dry_run backup fs) as [status fs'].
  rewrite IH, stats_total_bump. lia.
Qed.

(** X27. When the batch runs, its five counters add up to the number of
    files found: every file is counted once, whatever its outcome. *)
Theorem batch_counts_every_file directory dry_run backup (fs : filesystem) stats :
  fst (main_scan_and_convert directory dry_run backup fs) = Some stats ->
  stats_total stats = length (find_mask_files fs directory)
  /\ find_mask_files fs directory <> [].
Proof.
  unfold main_scan_and_convert.
  destruct (find_mask_files fs directory) as [|p files] eqn:Hf; [done|].
  pose proof (convert_each_total (p :: files) dry_run backup stats_init fs) as Ht.
  destruct (convert_each _ _ _ _ _) as [st fs']. simpl in Ht |- *.
  intros [= <-]. split; [|done]. rewrite Ht. reflexivity.
Qed.

Lemma convert_each_dry_run files backup stats (fs : filesystem) :
  snd (convert_each files true backup stats fs) = fs.
Proof.
  revert stats. induction files as [|p files IH]; intros stats; simpl; [done|].
  pose proof (convert_dry_run_disk p backup fs) as Hd.
  destruct (convert_file p true backup fs) as [status fs']. simpl in Hd. subst fs'.
  apply IH.
Qed.

(** X28. A whole batch with [dry_run] on leaves the disk unchanged. *)
Theorem batch_dry_run_leaves_disk directory backup (fs : filesystem) :
  snd (main_scan_and_convert directory true backup fs) = fs.
Proof.
  unfold main_scan_and_convert.
  destruct (find_mask_files fs directory) as [|p files]; [done|].
  pose proof (convert_each_dry_run (p :: files) backup stats_init fs) as Hd.
  by destruct (convert_each _ _ _ _ _).
Qed.

(** ** Colours *)

Lemma color_for_length t v : length (color_for t v) = 3%nat.
Proof. unfold color_for. by destruct (cvtColor_HSV2RGB _) as [[r g] b]. Qed.

Lemma elem_of_positive_ids a v : v ∈ positive_ids a <-> 0 < v /\ v ∈ data a.
Proof. unfold positive_ids. by rewrite list_elem_of_filter, elem_of_np_unique. Qed.

Lemma positive_ids_sorted a : StronglySorted Z.lt (positive_ids a).
Proof.
  unfold positive_ids. pose proof (np_unique_sorted a) as Hs.
  induction Hs as [|x l Hs IH Hall]; [constructor|].
  rewrite filter_cons. destruct (decide (0 < x)); [|done].
  constructor; [done|]. apply Forall_forall. intros y Hy.
  apply list_elem_of_filter in Hy as [_ Hy].
  by apply (proj1 (Forall_forall _ _) Hall).
Qed.

Lemma lookup_concat_triples (ls : list (list Z)) k c l :
  Forall (fun x => length x = 3%nat) ls ->
  ls !! k = Some l -> (c < 3)%nat ->
  concat ls !! (3 * k + c)%nat = l !! c.
Proof.
  intros Hall. revert k. induction Hall as [|x ls Hx _ IH]; intros k Hk Hc; [done|].
  destruct k as [|k]; simpl in *.
  - injection Hk as ->. rewrite lookup_app_l by lia. done.
  - rewrite lookup_app_r by lia. rewrite <- (IH k Hk Hc). f_equal. lia.
Qed.

(** X30. The exported colours are aligned with the positive IDs in
    ascending order: the IDs are strictly increasing and are exactly the
    positive values of the raster, the k-th row is the colour of the k-th
    ID, and a raster without IDs exports the single row [0, 0, 0]. *)
Theorem generate_colors_aligned_with_ids a :
  StronglySorted Z.lt (positive_ids a)
  /\ (forall v, v ∈ positive_ids a <-> 0 < v /\ v ∈ data a)
  /\ (positive_ids a = [] ->
        generate_colors a = NdArray np_int64 [1; 3]%nat [0; 0; 0])
  /\ (positive_ids a <> [] ->
        shape (generate_colors a) = [length (positive_ids a); 3%nat]
        /\ forall k v c, positive_ids a !! k = Some v -> (c < 3)%nat ->
             data (generate_colors a) !! (3 * k + c)%nat
             = color_for (dtype_of a) v !! c).
Proof.
  split; [apply positive_ids_sorted|]. split; [apply elem_of_positive_ids|].
  unfold generate_colors. split.
  - by intros ->.
  - intros Hne. destruct (positive_ids a) as [|id ids] eqn:Hids; [done|]. clear Hne.
    rewrite <- Hids. cbn [shape data]. rewrite length_map. split; [done|].
    intros k v c Hk Hc. apply lookup_concat_triples; [|by rewrite list_lookup_fmap, Hk|done].
    apply Forall_forall. intros x Hx. apply list_elem_of_fmap in Hx as (y & -> & _).
    apply color_for_length.
Qed.

Lemma paint_region_lookup masks overlay mask_id j :
  data (paint_region masks overlay mask_id) !! j
  = (fun u => if default 0 (data masks !! (j / 4)%nat) =? mask_id
              then default 0 ((color_for (dtype_of masks) mask_id ++ [255]) !! (j mod 4)%nat)
              else u) <$> data overlay !! j.
Proof. unfold paint_region. cbn [data]. apply list_lookup_imap. Qed.

Lemma overlay_fold_lookup masks ids overlay i v c u :
  data masks !! i = Some v ->
  (c < 4)%nat ->
  data overlay !! (4 * i + c)%nat = Some u ->
  data (fold_left (paint_region masks) ids overlay) !! (4 * i + c)%nat
  = Some (if bool_decide (v ∈ ids)
          then default 0 ((color_for (dtype_of masks) v ++ [255]) !! c)
          else u).
Proof.
  intros Hv Hc. revert overlay u. induction ids as [|id ids IH]; intros overlay u Hu.
  - cbn [fold_left]. by rewrite bool_decide_eq_false_2 by set_solver.
  - cbn [fold_left].
    assert (Hdiv : ((4 * i + c) / 4 = i)%nat)
      by (rewrite Nat.mul_comm, Nat.div_add_l by lia; rewrite Nat.div_small by lia; lia).
    assert (Hmod : ((4 * i + c) mod 4 = c)%nat)
      by (rewrite Nat.add_comm, Nat.mul_comm, Nat.Div0.mod_add; by apply Nat.mod_small).
    erewrite IH; last first.
    { rewrite paint_region_lookup, Hu, Hdiv, Hmod, Hv. simpl. reflexivity. }
    destruct (v =? id) eqn:E.
    + apply Z.eqb_eq in E. subst id.
      rewrite (bool_decide_eq_true_2 (v ∈ v :: ids)) by set_solver.
      by destruct (bool_decide (v ∈ ids)).
    + apply Z.eqb_neq in E.
      destruct (bool_decide (v ∈ ids)) eqn:Ein.
      * apply bool_decide_eq_true in Ein.
        by rewrite bool_decide_eq_true_2 by set_solver.
      * apply bool_decide_eq_false in Ein.
        by rewrite bool_decide_eq_false_2 by set_solver.
Qed.

(** X29. In the overlay every pixel of an instance shows the colour
    computed for its ID, the one [_generate_colors] exports, at full
    opacity, and every other pixel is transparent black. *)
Theorem overlay_shows_exported_colours masks (h w : nat) i v c :
  shape masks = [h; w] ->
  data masks !! i = Some v ->
  (i < h * w)%nat ->
  (c < 4)%nat ->
  exists overlay,
    _create_mask_overlay masks = Some overlay
    /\ shape overlay = [h; w; 4%nat]
    /\ data overlay !! (4 * i + c)%nat
       = Some (if bool_decide (0 < v)
               then default 0 ((color_for (dtype_of masks) v ++ [255]) !! c)
               else 0).
Proof.
  intros Hs Hv Hi Hc. unfold _create_mask_overlay. rewrite Hs.
  eexists. split; [done|]. split.
  - assert (Hshape : forall ids ov,
              shape (fold_left (paint_region masks) ids ov) = shape ov).
    { induction ids as [|id ids IH]; intros ov; cbn [fold_left]; [done|].
      by rewrite IH. }
    by rewrite Hshape.
  - erewrite overlay_fold_lookup; [|done|done|].
    + f_equal. destruct (bool_decide (v ∈ positive_ids masks)) eqn:E.
      * apply bool_decide_eq_true, elem_of_positive_ids in E as [Hpos _].
        by rewrite bool_decide_eq_true_2.
      * apply bool_decide_eq_false in E. rewrite bool_decide_eq_false_2; [done|].
        intros Hpos. apply E, elem_of_positive_ids. split; [done|].
        by eapply list_elem_of_lookup_2.
    + unfold np_zeros. cbn [data]. apply lookup_replicate_2. simpl. lia.
Qed.

End More_properties.

(* ===================================================================== *)
(** * The further properties on concrete sessions and disks *)
(* ===================================================================== *)

Section More_session_properties.
#[local] Existing Instance Reference.cv.
#[local] Existing Instance Reference.numpy.
Import Sessions Scenarios.

(** ** Instances of the further properties *)

(** X1 on image b with a full stack: the push drops the oldest entry. *)
Lemma push_keeps_latest_fifty_witness :
  ((length (undo_stack full_stack_on_b) < max_undo_steps)%nat ->
   undo_stack (add_to_undo_stack full_stack_on_b)
   = undo_stack full_stack_on_b ++ [block7_loaded])
  /\ (length (undo_stack full_stack_on_b) = max_undo_steps ->
      undo_stack (add_to_undo_stack full_stack_on_b)
      = tail (undo_stack full_stack_on_b) ++ [block7_loaded])
  /\ (length (undo_stack (add_to_undo_stack full_stack_on_b)) <= max_undo_steps)%nat.
Proof.
  apply (push_keeps_latest_fifty full_stack_on_b block7_loaded).
  - vm_compute; reflexivity.
  - vm_compute. lia.
Defined.

(** X2 on image b: erase instance 7 at (1, 1), then undo. *)
Lemma undo_after_erase_restores_witness :
  masks (canvas (window (undo (snd (_delete_mask_at 1 1 on_b))))) = Some block7_loaded.
Proof.
  apply (undo_after_erase_restores 1 1 on_b block7_loaded 7); vm_compute; reflexivity.
Defined.

(** X3 on image b after the box behind instance 7 was drawn. *)
Lemma load_after_save_roundtrip_witness :
  masks (canvas (window (snd (load_image "/data/b.tif"
    {| window := window painted_b;
       disk := snd (save_masks (canvas (window painted_b)) (disk painted_b)) |}))))
  = Some square_behind_7.
Proof.
  apply (load_after_save_roundtrip painted_b "/data/b.tif" square_behind_7 4 6).
  - vm_compute; reflexivity.
  - vm_compute; reflexivity.
  - vm_compute; reflexivity.
  - reflexivity.
  - reflexivity.
  - unfold square_behind_7; cbn [data]. repeat (constructor; [lia|]). constructor.
  - vm_compute. lia.
  - vm_compute. eexists; reflexivity.
Defined.

(** X5 on the same session, saved to the disk of the start. *)
Lemma save_writes_complete_container_witness :
  fst (save_masks (canvas (window painted_b)) disk0)
  = Saved (Z.of_nat (length (np_unique square_behind_7)) - 1)
  /\ (exists d,
        np_load (snd (save_masks (canvas (window painted_b)) disk0))
                (_get_mask_path "/data/b.tif") = Some (ObjScalar (PyDict d))
        /\ is_cellpose_format (ObjScalar (PyDict d)) = true
        /\ d !! "masks"%string = Some (PyArray (astype np_uint16 square_behind_7))
        /\ d !! "outlines"%string = Some (PyArray (outlines_of square_behind_7))
        /\ d !! "colors"%string = Some (PyArray (generate_colors square_behind_7))
        /\ d !! "filename"%string = Some (PyStr "/data/b.tif"))
  /\ (forall q, q <> _get_mask_path "/data/b.tif" ->
      snd (save_masks (canvas (window painted_b)) disk0) !! q = disk0 !! q).
Proof.
  apply (save_writes_complete_container (canvas (window painted_b)) disk0
           "/data/b.tif" square_behind_7 (outlines_of square_behind_7)).
  - vm_compute; reflexivity.
  - vm_compute; reflexivity.
  - vm_compute. lia.
  - vm_compute; reflexivity.
Defined.

(** X6 on the same session. *)
Lemma save_changes_only_the_container_witness :
  snd (save_masks (canvas (window painted_b)) disk0) !! "/data/b.tif"%string
  = disk0 !! "/data/b.tif"%string
  /\ (forall q, q <> _get_mask_path "/data/b.tif" ->
      snd (save_masks (canvas (window painted_b)) disk0) !! q = disk0 !! q)
  /\ (forall h w : nat, imread disk0 "/data/b.tif" = Some (h, w) ->
      imread (snd (save_masks (canvas (window painted_b)) disk0)) "/data/b.tif"
      = Some (h, w)).
Proof.
  apply (save_changes_only_the_container (canvas (window painted_b)) disk0 "/data/b.tif").
  vm_compute; reflexivity.
Defined.

(** X7: saving image b as loaded and then as painted leaves the disk of
    saving it as painted. *)
Lemma last_save_wins_witness :
  snd (save_masks (canvas (window painted_b))
         (snd (save_masks (canvas (window on_b)) disk0)))
  = snd (save_masks (canvas (window painted_b)) disk0).
Proof.
  apply (last_save_wins (canvas (window painted_b)) (canvas (window on_b)) disk0
           "/data/b.tif" square_behind_7).
  - vm_compute; reflexivity.
  - vm_compute; reflexivity.
  - vm_compute; reflexivity.
  - vm_compute. discriminate.
Defined.

(** X8 on image a (4 x 6) at the start. *)
Lemma load_image_sets_up_canvas_witness :
  fst (load_image "/data/a.tif" start) = true
  /\ image (canvas (window (snd (load_image "/data/a.tif" start)))) = Some (4, 6)%nat
  /\ image_path (canvas (window (snd (load_image "/data/a.tif" start))))
     = Some "/data/a.tif"%string
  /\ (exists m, masks (canvas (window (snd (load_image "/data/a.tif" start)))) = Some m
                /\ shape2 m = [4; 6]%nat /\ dtype_of m = np_int32)
  /\ polygon_of (snd (load_image "/data/a.tif" start)) = []
  /\ is_drawing (canvas (window (snd (load_image "/data/a.tif" start)))) = false
  /\ undo_stack (window (snd (load_image "/data/a.tif" start))) = undo_stack (window start)
  /\ disk (snd (load_image "/data/a.tif" start)) = disk start.
Proof.
  apply (load_image_sets_up_canvas "/data/a.tif" start 4 6).
  vm_compute; reflexivity.
Defined.

(** X9 on image f (2 x 2), whose container holds a 4 x 6 array. *)
Lemma load_image_falls_back_to_blank_witness :
  masks (canvas (window (snd (load_image "/data/f.tif" (startup disk1)))))
  = Some (np_zeros [2; 2]%nat np_int32)
  /\ next_mask_id (canvas (window (snd (load_image "/data/f.tif" (startup disk1)))))
     = next_mask_id (canvas (window (startup disk1))).
Proof.
  apply (load_image_falls_back_to_blank "/data/f.tif" (startup disk1) 2 2).
  - vm_compute; reflexivity.
  - right; right. exists (NumArray block7), block7.
    split; [vm_compute; reflexivity|]. split; [reflexivity|].
    right. vm_compute. discriminate.
Defined.

(** X10 on image b, whose container holds [block7]. *)
Lemma load_image_adopts_container_witness :
  masks (canvas (window (snd (load_image "/data/b.tif" start))))
  = Some (astype np_int32 block7)
  /\ (forall mx, np_max (astype np_int32 block7) = Some mx -> 0 < mx ->
      next_mask_id (canvas (window (snd (load_image "/data/b.tif" start)))) = mx + 1
      /\ Forall (fun v => v < mx + 1) (data (astype np_int32 block7))).
Proof.
  apply (load_image_adopts_container "/data/b.tif" start 4 6 (NumArray block7) block7).
  - vm_compute; reflexivity.
  - vm_compute; reflexivity.
  - reflexivity.
  - vm_compute. lia.
  - vm_compute; reflexivity.
Defined.

(** X11 on image a at the start. *)
Lemma load_image_indexes_current_file_witness :
  (forall q,
     q ∈ tiff_files (window (snd (load_image "/data/a.tif" start)))
     <-> is_Some (disk start !! q) /\ path_dir q = path_dir "/data/a.tif"
         /\ has_tiff_extension q)
  /\ (has_tiff_extension "/data/a.tif" ->
      0 <= current_file_index (window (snd (load_image "/data/a.tif" start)))
      /\ tiff_files (window (snd (load_image "/data/a.tif" start)))
         !! Z.to_nat (current_file_index (window (snd (load_image "/data/a.tif" start))))
         = Some "/data/a.tif"%string)
  /\ (~ has_tiff_extension "/data/a.tif" ->
      current_file_index (window (snd (load_image "/data/a.tif" start))) = -1).
Proof.
  apply (load_image_indexes_current_file "/data/a.tif" start 4 6).
  vm_compute; reflexivity.
Defined.

(** X12 on image b, with a click at (1, 1). *)
Lemma delete_never_raises_witness :
  fst (_delete_mask_at 1 1 on_b) = OutOfBounds
  \/ fst (_delete_mask_at 1 1 on_b) = NoMaskHere
  \/ exists v, 0 < v /\ fst (_delete_mask_at 1 1 on_b) = Deleted v.
Proof.
  apply (delete_never_raises 1 1 on_b block7_loaded 4 6).
  - vm_compute; reflexivity.
  - reflexivity.
  - vm_compute; reflexivity.
Defined.

(** X13 on image b: instance 7 is its only instance. *)
Lemma erase_last_instance_removes_container_witness :
  fst (_delete_mask_at 1 1 on_b) = Deleted 7
  /\ (exists m', masks (canvas (window (snd (_delete_mask_at 1 1 on_b)))) = Some m'
                 /\ Forall (fun u => u = 0) (data m'))
  /\ disk (snd (_delete_mask_at 1 1 on_b))
     = delete (_get_mask_path "/data/b.tif") (disk on_b)
  /\ disk (snd (_delete_mask_at 1 1 on_b)) !! _get_mask_path "/data/b.tif" = None.
Proof.
  apply (erase_last_instance_removes_container 1 1 on_b block7_loaded "/data/b.tif" 4 6 7).
  - vm_compute; reflexivity.
  - vm_compute; reflexivity.
  - reflexivity.
  - lia.
  - lia.
  - vm_compute; reflexivity.
  - lia.
  - vm_compute. repeat (constructor; [first [left; reflexivity | right; reflexivity]|]).
    constructor.
Defined.

(** X14 on image a: a press followed at once by the release. *)
Lemma short_stroke_paints_nothing_witness :
  fst (mouseReleaseEvent (pointer 0 0 false) one_point_on_a) = None
  /\ masks (canvas (window (snd (mouseReleaseEvent (pointer 0 0 false) one_point_on_a))))
     = masks (canvas (window one_point_on_a))
  /\ next_mask_id (canvas (window (snd (mouseReleaseEvent (pointer 0 0 false) one_point_on_a))))
     = next_mask_id (canvas (window one_point_on_a))
  /\ undo_stack (window (snd (mouseReleaseEvent (pointer 0 0 false) one_point_on_a)))
     = undo_stack (window one_point_on_a)
  /\ disk (snd (mouseReleaseEvent (pointer 0 0 false) one_point_on_a)) = disk one_point_on_a
  /\ polygon_of (snd (mouseReleaseEvent (pointer 0 0 false) one_point_on_a)) = []
  /\ is_drawing (canvas (window (snd (mouseReleaseEvent (pointer 0 0 false) one_point_on_a))))
     = false.
Proof.
  apply (short_stroke_paints_nothing (pointer 0 0 false) one_point_on_a).
  - vm_compute. eexists; reflexivity.
  - vm_compute; reflexivity.
  - vm_compute; reflexivity.
  - vm_compute; reflexivity.
  - reflexivity.
  - vm_compute. lia.
Defined.

(** X15 on image b while the box behind instance 7 is dragged: the paint
    uses ID 8. *)
Lemma paint_uses_fresh_id_witness :
  8 = next_mask_id (canvas (window dragging_on_b))
  /\ 0 < 8
  /\ (8 ∉ data block7_loaded)
  /\ next_mask_id (canvas (snd (_create_mask_from_polygon (window dragging_on_b)))) = 8 + 1
  /\ exists m',
       masks (canvas (snd (_create_mask_from_polygon (window dragging_on_b)))) = Some m'
       /\ ids_below (8 + 1) m'
       /\ (well_formed block7_loaded ->
           exists (i : nat) u, data block7_loaded !! i = Some u /\ u <= 0
                               /\ data m' !! i = Some 8).
Proof.
  apply (paint_uses_fresh_id (window dragging_on_b) block7_loaded 8 8).
  - vm_compute; reflexivity.
  - unfold ids_below. vm_compute. repeat (constructor; [reflexivity|]). constructor.
  - vm_compute; reflexivity.
Defined.

(** X16 on [a_session], from the start. *)
Lemma session_ids_stay_below_counter_witness :
  ids_fresh (window (run_all a_session (startup disk0))).
Proof.
  apply (session_ids_stay_below_counter a_session (startup disk0)).
  - split; [vm_compute; discriminate|]. split; [intros m Hm; discriminate Hm|constructor].
  - reflexivity.
Defined.

(** X17 on [a_session], from the start. *)
Lemma session_raster_fits_image_witness :
  raster_fits_image (window (run_all a_session (startup disk0))).
Proof.
  apply (session_raster_fits_image a_session (startup disk0)).
  - split; reflexivity.
  - reflexivity.
Defined.

(** X20 on a container that has no image, with a backup asked for. *)
Lemma convert_without_tif_witness :
  convert_file "/data/g_seg.npy" false true disk1 = (no_tif, disk1).
Proof.
  apply (convert_without_tif "/data/g_seg.npy" false true disk1 (NumArray block7)).
  - vm_compute; reflexivity.
  - vm_compute. lia.
  - vm_compute; reflexivity.
Defined.

(** X21 on the simple container of image b. *)
Lemma convert_upgrades_to_complete_witness :
  fst (convert_file "/data/b_seg.npy" false true disk0)
  = converted (Z.of_nat (length (np_unique block7)) - 1) false
  /\ exists d,
       np_load (snd (convert_file "/data/b_seg.npy" false true disk0)) "/data/b_seg.npy"
       = Some (ObjScalar (PyDict d))
       /\ is_cellpose_format (ObjScalar (PyDict d)) = true
       /\ masks_candidate (ObjScalar (PyDict d)) = Some (astype np_uint16 block7)
       /\ d !! "filename"%string = Some (PyStr "/data/b.tif").
Proof.
  apply (convert_upgrades_to_complete "/data/b_seg.npy" true disk0 (NumArray block7)
           block7 "/data/b.tif" (outlines_of block7)).
  - vm_compute; reflexivity.
  - vm_compute. lia.
  - reflexivity.
  - vm_compute; reflexivity.
  - vm_compute; reflexivity.
Defined.

(** X23 on the simple container of image b. *)
Lemma convert_twice_is_already_complete_witness :
  convert_file "/data/b_seg.npy" false true
    (snd (convert_file "/data/b_seg.npy" false false disk0))
  = (already_cellpose, snd (convert_file "/data/b_seg.npy" false false disk0)).
Proof.
  apply (convert_twice_is_already_complete "/data/b_seg.npy" false false true disk0 1 false).
  vm_compute; reflexivity.
Defined.

(** X24 on the simple container of image b. *)
Lemma convert_backup_keeps_original_witness :
  snd (convert_file "/data/b_seg.npy" false true disk0) !! ("/data/b_seg.npy" ++ ".backup")%string
  = disk0 !! "/data/b_seg.npy"%string
  /\ is_Some (disk0 !! "/data/b_seg.npy"%string).
Proof.
  apply (convert_backup_keeps_original "/data/b_seg.npy" disk0 1 false).
  vm_compute; reflexivity.
Defined.

(** X25: converting the container of image b leaves the container of
    image c as it is. *)
Lemma convert_touches_only_its_files_witness :
  snd (convert_file "/data/b_seg.npy" false true disk0) !! "/data/c_seg.npy"%string
  = disk0 !! "/data/c_seg.npy"%string.
Proof.
  apply (convert_touches_only_its_files "/data/b_seg.npy" false true disk0 "/data/c_seg.npy").
  - discriminate.
  - intros _. vm_compute. discriminate.
Defined.

(** X27 on the batch over [disk0]. *)
Lemma batch_counts_every_file_witness :
  stats_total batch_stats = length (find_mask_files disk0 "/data")
  /\ find_mask_files disk0 "/data" <> [].
Proof.
  apply (batch_counts_every_file "/data" false false disk0 batch_stats).
  vm_compute; reflexivity.
Defined.

(** X29 on the raster with instances 7 and 8: the red channel of pixel
    (0, 4). *)
Lemma overlay_shows_exported_colours_witness :
  exists overlay,
    _create_mask_overlay square_behind_7 = Some overlay
    /\ shape overlay = [4; 6; 4]%nat
    /\ data overlay !! (4 * 4 + 0)%nat
       = Some (if bool_decide (0 < 8)
               then default 0 ((color_for (dtype_of square_behind_7) 8 ++ [255]) !! 0%nat)
               else 0).
Proof.
  apply (overlay_shows_exported_colours square_behind_7 4 6 4 8 0).
  - reflexivity.
  - reflexivity.
  - lia.
  - lia.
Defined.

End More_session_properties.
